(** * Distinct elements in streams: the estimator of [des/algorithm.py]

    A shallow embedding of [calculate_threshold] and of the class [DES]
    ([reset], [get_threshold], [get_threshold_hit_count], [distinct]),
    followed by the properties of the estimator.

    Python values are modelled as follows.
    - [int] is [Z].
    - [float] is IEEE-754 binary64, taken from the [SpecFloat] library
      (precision 53, [emax] 1024), so rounding, underflow, infinities and
      NaN behave as they do in CPython.
    - a raised exception is a value of [exn]; a computation that may raise
      returns a [result], and a statement that raises leaves behind what it
      had assigned.
    - [set] is a [gset]; the order in which a Python set is iterated is not
      specified by the language, the model iterates [elements].  No
      property below depends on that order.
    - an iterator is the list of the objects it still has to give; [None]
      in that list is Python's [None], [Some k] any other object.
    - the lock is not modelled: the statements of one call run in order.
    - the generator [random.Random] and the libm functions behind
      [math.pow] and [math.log] are not part of the repository: they are
      parameters ([RandomSource], [libm_pow], [libm_log]).  [MT19937] gives
      the instance CPython uses for [random.Random]. *)

From Stdlib Require Import ZArith Lia Bool List.
From Stdlib Require Import Floats.SpecFloat.
From stdpp Require Import base gmap sets list.

Local Open Scope Z_scope.

(** * The program *)

(** ** Exceptions and results *)

(** The two places that raise [OverflowError] by themselves (the [raise] of
    [distinct], and the conversions between [int] and [float]) are told
    apart by the message. *)
Inductive overflow_msg : Type :=
| could_not_down_sample (thresh set_size : Z)
| int_too_large_to_convert_to_float
| cannot_convert_float_infinity_to_integer
| math_range_error.

Inductive exn : Type :=
| ValueError
| AssertionError
| ZeroDivisionError
| OverflowError (msg : overflow_msg).

Inductive result (A : Type) : Type :=
| Ok (a : A)
| Raise (e : exn).
Arguments Ok {A} a.
Arguments Raise {A} e.

#[global] Instance result_ret : MRet result := @Ok.
#[global] Instance result_bind : MBind result :=
  fun A B (k : A -> result B) (r : result A) =>
    match r with
    | Ok a => k a
    | Raise e => Raise e
    end.

(** ** Binary64 *)

Module Py.

Definition prec : Z := 53.
Definition emax : Z := 1024.

Abbreviation float := spec_float.

(** The float whose value is [m * 2^e], rounded to nearest even. *)
Definition dyadic (m e : Z) : float := binary_normalize prec emax m e false.

Definition f_zero : float := S754_zero false.
Definition f_one : float := Eval vm_compute in dyadic 1 0.
Definition f_two : float := Eval vm_compute in dyadic 2 0.
Definition f_half : float := Eval vm_compute in dyadic 1 (-1).
Definition f_eight : float := Eval vm_compute in dyadic 8 0.
Definition f_twelve : float := Eval vm_compute in dyadic 12 0.

Definition f_lt (x y : float) : bool := SFltb x y.
Definition f_le (x y : float) : bool := SFleb x y.
Definition f_ge (x y : float) : bool := SFleb y x.
Definition f_eq (x y : float) : bool := SFeqb x y.
Definition f_mul (x y : float) : float := SFmul prec emax x y.

Definition is_nan (x : float) : bool :=
  match x with S754_nan => true | _ => false end.
Definition is_inf (x : float) : bool :=
  match x with S754_infinity _ => true | _ => false end.
Definition is_finite (x : float) : bool :=
  match x with S754_zero _ | S754_finite _ _ _ => true | _ => false end.

(** [float(n)] for an [int] operand of a float operation. *)
Definition float_of_int (n : Z) : result float :=
  let x := dyadic n 0 in
  if is_inf x then Raise (OverflowError int_too_large_to_convert_to_float)
  else Ok x.

(** [x / y] on floats. *)
Definition truediv (x y : float) : result float :=
  if f_eq y f_zero then Raise ZeroDivisionError
  else Ok (SFdiv prec emax x y).

(** The integer [m * 2^e] rounded towards minus infinity. *)
Definition floor_dyadic (m e : Z) : Z := Z.shiftl m e.

Definition signed (s : bool) (m : positive) : Z :=
  if s then Z.neg m else Z.pos m.

(** [math.floor(x)] and [math.ceil(x)] on a float. *)
Definition math_floor (x : float) : result Z :=
  match x with
  | S754_nan => Raise ValueError
  | S754_infinity _ => Raise (OverflowError cannot_convert_float_infinity_to_integer)
  | S754_zero _ => Ok 0
  | S754_finite s m e => Ok (floor_dyadic (signed s m) e)
  end.

Definition math_ceil (x : float) : result Z :=
  match x with
  | S754_nan => Raise ValueError
  | S754_infinity _ => Raise (OverflowError cannot_convert_float_infinity_to_integer)
  | S754_zero _ => Ok 0
  | S754_finite s m e => Ok (- floor_dyadic (- signed s m) e)
  end.

Section Libm.
(** The C functions [pow] and [log] of the platform. *)
Variable libm_pow : float -> float -> float.
Variable libm_log : float -> float.

(** [math.pow(x, 2)]: CPython answers for a NaN or an infinite [x]
    itself and checks what libm returns for a finite one. *)
Definition math_pow_2 (x : float) : result float :=
  match x with
  | S754_nan => Ok S754_nan
  | S754_infinity _ => Ok (S754_infinity false)
  | _ =>
      let r := libm_pow x f_two in
      if is_nan r then Raise ValueError
      else if is_inf r then
        if f_eq x f_zero then Raise ValueError
        else Raise (OverflowError math_range_error)
      else Ok r
  end.

(** [math.log(x)] with a float argument. *)
Definition math_log (x : float) : result float :=
  match x with
  | S754_nan => Ok S754_nan
  | S754_infinity false => Ok x
  | S754_infinity true => Raise ValueError
  | _ =>
      if f_lt f_zero x then
        let r := libm_log x in
        if is_nan r || is_inf r then Raise ValueError else Ok r
      else Raise ValueError
  end.
End Libm.

End Py.

Import Py.

(** ** The generator behind [random.Random]

    [DES] only constructs the generator from the seed and calls its
    [random()] method. *)
Class RandomSource (rng : Type) : Type := {
  Random : Z -> rng;
  random : rng -> float * rng
}.

(** CPython's [random.Random]: the Mersenne Twister MT19937, seeded with
    [init_by_array] on the 32-bit limbs of the absolute value of the seed;
    [random()] builds a 53-bit fraction from two outputs. *)
Module MT19937.

Definition N : nat := 624.
Definition M : nat := 397.
Definition MATRIX_A : Z := 0x9908b0df.
Definition UPPER_MASK : Z := 0x80000000.
Definition LOWER_MASK : Z := 0x7fffffff.

Definition u32 (x : Z) : Z := x mod 2 ^ 32.

Record state : Type := { mt : list Z; index : nat }.

Definition get (a : list Z) (i : nat) : Z := default 0 (a !! i).

Definition init_genrand (s : Z) : list Z :=
  foldl (fun a i =>
           let prev := get a (i - 1) in
           a ++ [u32 (1812433253 * Z.lxor prev (Z.shiftr prev 30) + Z.of_nat i)])
        [u32 s] (seq 1 (N - 1)).

(** One step of the first loop of [init_by_array]; the state is the array
    and the two cursors [i] and [j]. *)
Definition key_step (key : list Z) (st : list Z * nat * nat) : list Z * nat * nat :=
  let '(a, i, j) := st in
  let prev := get a (i - 1) in
  let v := u32 (Z.lxor (get a i) (Z.lxor prev (Z.shiftr prev 30) * 1664525)
                + get key j + Z.of_nat j) in
  let a := <[i := v]> a in
  let i := S i in
  let j := S j in
  let '(a, i) := if (N <=? i)%nat then (<[0%nat := get a (N - 1)]> a, 1%nat) else (a, i) in
  let j := if (length key <=? j)%nat then 0%nat else j in
  (a, i, j).

Definition mix_step (st : list Z * nat) : list Z * nat :=
  let '(a, i) := st in
  let prev := get a (i - 1) in
  let v := u32 (Z.lxor (get a i) (Z.lxor prev (Z.shiftr prev 30) * 1566083941)
                - Z.of_nat i) in
  let a := <[i := v]> a in
  let i := S i in
  if (N <=? i)%nat then (<[0%nat := get a (N - 1)]> a, 1%nat) else (a, i).

Definition init_by_array (key : list Z) : list Z :=
  let a := init_genrand 19650218 in
  let '(a, i, _) := Nat.iter (Nat.max N (length key)) (key_step key) (a, 1%nat, 0%nat) in
  let '(a, _) := Nat.iter (N - 1) mix_step (a, i) in
  <[0%nat := UPPER_MASK]> a.

(** The 32-bit limbs of a non-negative integer, least significant first;
    zero has the single limb 0. *)
Fixpoint limbs (fuel : nat) (n : Z) : list Z :=
  match fuel with
  | O => []
  | S fuel' =>
      if n <? 2 ^ 32 then [n] else (n mod 2 ^ 32) :: limbs fuel' (n / 2 ^ 32)
  end.

Definition seed_state (s : Z) : state :=
  let n := Z.abs s in
  {| mt := init_by_array (limbs (S (Z.to_nat (Z.log2 n))) n); index := N |}.

Definition twist_at (a : list Z) (kk next from : nat) : list Z :=
  let y := Z.lor (Z.land (get a kk) UPPER_MASK) (Z.land (get a next) LOWER_MASK) in
  let mag := if Z.odd y then MATRIX_A else 0 in
  <[kk := Z.lxor (Z.lxor (get a from) (Z.shiftr y 1)) mag]> a.

Definition twist (a : list Z) : list Z :=
  let a := foldl (fun a kk => twist_at a kk (kk + 1) (kk + M)) a (seq 0 (N - M)) in
  let a := foldl (fun a kk => twist_at a kk (kk + 1) (kk + M - N)) a (seq (N - M) (M - 1)) in
  twist_at a (N - 1) 0 (M - 1).

Definition temper (y : Z) : Z :=
  let y := Z.lxor y (Z.shiftr y 11) in
  let y := Z.lxor y (Z.land (Z.shiftl y 7) 0x9d2c5680) in
  let y := Z.lxor y (Z.land (Z.shiftl y 15) 0xefc60000) in
  Z.lxor y (Z.shiftr y 18).

Definition genrand_uint32 (s : state) : Z * state :=
  let s := if (N <=? index s)%nat then {| mt := twist (mt s); index := 0 |} else s in
  (u32 (temper (get (mt s) (index s))), {| mt := mt s; index := S (index s) |}).

(** [random()]: [(a * 2^26 + b) / 2^53] with [a] the top 27 bits of one
    output and [b] the top 26 bits of the next. *)
Definition genrand_res53 (s : state) : float * state :=
  let '(x, s) := genrand_uint32 s in
  let '(y, s) := genrand_uint32 s in
  (dyadic (Z.shiftr x 5 * 67108864 + Z.shiftr y 6) (-53), s).

#[global] Instance source : RandomSource state :=
  {| Random := seed_state; random := genrand_res53 |}.

End MT19937.

(** ** The defaults of the module

    [_rel_err_tol_default = 0.1] and [_fail_prob_default = 0.05], as
    binary64 numbers. *)
Definition _rel_err_tol_default : float := S754_finite false 7205759403792794 (-56).
Definition _fail_prob_default : float := S754_finite false 7205759403792794 (-57).

(** ** [calculate_threshold] *)

Section Threshold.
Variable libm_pow : float -> float -> float.
Variable libm_log : float -> float.

Definition calculate_threshold
  (stream_size : Z) (relative_error_tolerance failure_probability : float) : result Z :=
  if f_le relative_error_tolerance f_zero || f_ge relative_error_tolerance f_one
  then Raise ValueError
  else if f_le failure_probability f_zero || f_ge failure_probability f_one
  then Raise ValueError
  else if stream_size <=? 0 then Raise ValueError
  else
    sq ← math_pow_2 libm_pow relative_error_tolerance;
    lhs ← truediv f_twelve sq;
    n ← float_of_int stream_size;
    arg ← truediv (f_mul f_eight n) failure_probability;
    rhs ← math_log libm_log arg;
    math_ceil (f_mul lhs rhs).

End Threshold.

(** ** The class [DES] *)

(** [_threshold_type]: an [int], or a callable of the stream size and the
    two floats. *)
Inductive _threshold_type : Type :=
| threshold_int (t : Z)
| threshold_callable (f : Z -> float -> float -> result Z).

(** [p / 2.0]; the divisor is not zero. *)
Definition halve (p : float) : float := SFdiv prec emax p f_two.

(** [int(math.floor(n / p))] for an integer [n]. *)
Definition floor_of_quotient (n : Z) (p : float) : result Z :=
  x ← float_of_int n;
  q ← truediv x p;
  math_floor q.

Section DES.
Context {K : Type} `{Countable K}.
Context {rng : Type} `{RandomSource rng}.

Record DES : Type := {
  _threshold : _threshold_type;
  _threshold_hit_count : Z;
  relative_error_tolerance : float;
  failure_probability : float;
  seed : Z;
  acc_set : gset K;
  cur_probability : float;
  rand : rng;
  distinct_item_count : Z
}.

Definition set_acc_set (v : gset K) (self : DES) : DES :=
  {| _threshold := _threshold self;
     _threshold_hit_count := _threshold_hit_count self;
     relative_error_tolerance := relative_error_tolerance self;
     failure_probability := failure_probability self;
     seed := seed self;
     acc_set := v;
     cur_probability := cur_probability self;
     rand := rand self;
     distinct_item_count := distinct_item_count self |}.

Definition set_cur_probability (v : float) (self : DES) : DES :=
  {| _threshold := _threshold self;
     _threshold_hit_count := _threshold_hit_count self;
     relative_error_tolerance := relative_error_tolerance self;
     failure_probability := failure_probability self;
     seed := seed self;
     acc_set := acc_set self;
     cur_probability := v;
     rand := rand self;
     distinct_item_count := distinct_item_count self |}.

Definition set_threshold_hit_count (v : Z) (self : DES) : DES :=
  {| _threshold := _threshold self;
     _threshold_hit_count := v;
     relative_error_tolerance := relative_error_tolerance self;
     failure_probability := failure_probability self;
     seed := seed self;
     acc_set := acc_set self;
     cur_probability := cur_probability self;
     rand := rand self;
     distinct_item_count := distinct_item_count self |}.

Definition set_rand (v : rng) (self : DES) : DES :=
  {| _threshold := _threshold self;
     _threshold_hit_count := _threshold_hit_count self;
     relative_error_tolerance := relative_error_tolerance self;
     failure_probability := failure_probability self;
     seed := seed self;
     acc_set := acc_set self;
     cur_probability := cur_probability self;
     rand := v;
     distinct_item_count := distinct_item_count self |}.

Definition set_distinct_item_count (v : Z) (self : DES) : DES :=
  {| _threshold := _threshold self;
     _threshold_hit_count := _threshold_hit_count self;
     relative_error_tolerance := relative_error_tolerance self;
     failure_probability := failure_probability self;
     seed := seed self;
     acc_set := acc_set self;
     cur_probability := cur_probability self;
     rand := rand self;
     distinct_item_count := v |}.

(** [reset]: everything but the configuration goes back to its initial
    value, and the generator is built again from the stored seed. *)
Definition reset (self : DES) : DES :=
  {| _threshold := _threshold self;
     _threshold_hit_count := 0;
     relative_error_tolerance := relative_error_tolerance self;
     failure_probability := failure_probability self;
     seed := seed self;
     acc_set := ∅;
     cur_probability := f_one;
     rand := Random (seed self);
     distinct_item_count := 0 |}.

(** [__init__] with an explicit seed: the four configuration attributes
    are stored, then [reset] sets the others. *)
Definition __init__ (threshold : _threshold_type)
  (relative_error_tolerance failure_probability : float) (seed : Z) : DES :=
  {| _threshold := threshold;
     _threshold_hit_count := 0;
     relative_error_tolerance := relative_error_tolerance;
     failure_probability := failure_probability;
     seed := seed;
     acc_set := ∅;
     cur_probability := f_one;
     rand := Random seed;
     distinct_item_count := 0 |}.

(** [DES(seed=seed)], the other arguments of [__init__] left at their
    defaults: the threshold is the function [calculate_threshold], the
    tolerances are those of the module. *)
Definition DES_with_defaults (libm_pow : float -> float -> float)
  (libm_log : float -> float) (seed : Z) : DES :=
  __init__ (threshold_callable (calculate_threshold libm_pow libm_log))
    _rel_err_tol_default _fail_prob_default seed.

Definition get_threshold (self : DES) (stream_size : Z) : result Z :=
  match _threshold self with
  | threshold_callable f =>
      f stream_size (relative_error_tolerance self) (failure_probability self)
  | threshold_int t => Ok t
  end.

Definition get_threshold_hit_count (self : DES) : Z := _threshold_hit_count self.

(** *** Statements that read and write [self]

    A statement takes the instance and gives the instance it leaves
    behind, together with its value or the exception it raised; what was
    assigned before a [raise] stays assigned. *)
Definition stmt (A : Type) : Type := DES -> result A * DES.

#[global] Instance stmt_ret : MRet stmt := fun A (a : A) self => (Ok a, self).
#[global] Instance stmt_bind : MBind stmt :=
  fun A B (k : A -> stmt B) (m : stmt A) self =>
    match m self with
    | (Ok a, self') => k a self'
    | (Raise e, self') => (Raise e, self')
    end.
Definition raise {A} (e : exn) : stmt A := fun self => (Raise e, self).
Definition read {A} (f : DES -> A) : stmt A := fun self => (Ok (f self), self).
Definition assign (f : DES -> DES) : stmt unit := fun self => (Ok tt, f self).
Definition when (b : bool) (m : stmt unit) : stmt unit := if b then m else mret tt.

(** [self.rand.random()] *)
Definition rand_random : stmt float :=
  fun self => let '(x, g) := random (rand self) in (Ok x, set_rand g self).

Definition len (s : gset K) : Z := Z.of_nat (size s).

(** The elements [v] of the comprehension
    [{v for v in self.acc_set if self.rand.random() >= 0.5}], one call of
    [random()] for each element met. *)
Fixpoint comprehension (vs : list K) : stmt (list K) :=
  match vs with
  | [] => mret []
  | v :: vs' =>
      x ← rand_random;
      kept ← comprehension vs';
      mret (if f_ge x f_half then v :: kept else kept)
  end.

(** The block under the lock that handles one item (lines 147-167). *)
Definition update (thresh : Z) (item : K) : stmt unit :=
  present ← read (fun self => bool_decide (item ∈ acc_set self));
  when present (assign (fun self => set_acc_set (acc_set self ∖ {[item]}) self));;
  x ← rand_random;
  p ← read cur_probability;
  when (f_lt x p) (assign (fun self => set_acc_set ({[item]} ∪ acc_set self) self));;
  n ← read (fun self => len (acc_set self));
  when (thresh <=? n)
    (assign (fun self => set_threshold_hit_count (_threshold_hit_count self + 1) self);;
     vs ← read (fun self => elements (acc_set self));
     kept ← comprehension vs;
     assign (set_acc_set (list_to_set kept));;
     assign (fun self => set_cur_probability (halve (cur_probability self)) self);;
     set_size ← read (fun self => len (acc_set self));
     when (thresh <=? set_size)
       (raise (OverflowError (could_not_down_sample thresh set_size)))).

(** [int(math.floor(len(self.acc_set) / self.cur_probability))] *)
Definition estimate (self : DES) : result Z :=
  floor_of_quotient (len (acc_set self)) (cur_probability self).

(** The two places of [distinct] where another thread can take the lock
    and look at the instance: after the block of an item, and after a
    poll. *)
Inductive observation : Type :=
| updated (self : DES)
| polled (self : DES).

(** What a call leaves behind: its value or exception, the instance, the
    part of the stream that was not consumed, and the observations in
    order. *)
Record outcome (A : Type) : Type := {
  value : result A;
  instance : DES;
  unread : list (option K);
  observed : list observation
}.
Arguments value {A} o.
Arguments instance {A} o.
Arguments unread {A} o.
Arguments observed {A} o.

Definition seen {A} (o : observation) (r : outcome A) : outcome A :=
  {| value := value r; instance := instance r; unread := unread r;
     observed := o :: observed r |}.

(** The [while] loop of [distinct].  An element [None] of the stream is
    Python's [None]: [next(stream, None)] gives it back and the loop ends,
    as it does when the stream is exhausted. *)
Fixpoint while_loop (thresh poll_rate : Z) (stream : list (option K)) (i : Z)
  (self : DES) : outcome unit :=
  match stream with
  | [] => {| value := Ok tt; instance := self; unread := []; observed := [] |}
  | None :: stream' =>
      {| value := Ok tt; instance := self; unread := stream'; observed := [] |}
  | Some item :: stream' =>
      match update thresh item self with
      | (Raise e, self) =>
          {| value := Raise e; instance := self; unread := stream'; observed := [] |}
      | (Ok _, self) =>
          seen (updated self)
            (if poll_rate =? 0 then
               {| value := Raise ZeroDivisionError; instance := self;
                  unread := stream'; observed := [] |}
             else if i mod poll_rate =? 0 then
               match estimate self with
               | Raise e =>
                   {| value := Raise e; instance := self; unread := stream';
                      observed := [] |}
               | Ok v =>
                   let self := set_distinct_item_count v self in
                   seen (polled self) (while_loop thresh poll_rate stream' (0 + 1) self)
               end
             else while_loop thresh poll_rate stream' (i + 1) self)
      end
  end.

Definition distinct (self : DES) (stream : list (option K)) (stream_size : Z)
  (reset_state : bool) (poll_rate : Z) : outcome Z :=
  let self := if reset_state then reset self else self in
  match get_threshold self stream_size with
  | Raise e => {| value := Raise e; instance := self; unread := stream; observed := [] |}
  | Ok thresh =>
      if thresh <=? 0 then
        {| value := Raise AssertionError; instance := self; unread := stream;
           observed := [] |}
      else
        let r := while_loop thresh poll_rate stream 0 self in
        match value r with
        | Raise e =>
            {| value := Raise e; instance := instance r; unread := unread r;
               observed := observed r |}
        | Ok _ =>
            match estimate (instance r) with
            | Raise e =>
                {| value := Raise e; instance := instance r; unread := unread r;
                   observed := observed r |}
            | Ok v =>
                {| value := Ok v;
                   instance := set_distinct_item_count v (instance r);
                   unread := unread r; observed := observed r |}
            end
        end
  end.

End DES.

Arguments value {K _ _ rng A} o.
Arguments instance {K _ _ rng A} o.
Arguments unread {K _ _ rng A} o.
Arguments observed {K _ _ rng A} o.

(** ** The test of the repository

    [run_test] of [tests/unit/des/test_algorithm.py], the function the
    test times: it builds [DES(threshold=100, seed=42)], which draws from
    [MT19937], runs it over the words of the text, checks the threshold
    and the event counter, and appends the accuracy of the count to the
    list it is given. *)

(** [a / b] on two [int]s: the quotient of the integers, rounded once
    to the nearest float; [None] stands for the [OverflowError] Python
    raises when that float would be infinite.  [exact_int] is the integer
    as the dividend or divisor of that one rounding, with all its digits. *)
Definition exact_int (n : Z) : float :=
  match n with
  | Z0 => S754_zero false
  | Zpos p => S754_finite false p 0
  | Zneg p => S754_finite true p 0
  end.

Definition int_truediv (a b : Z) : result (option float) :=
  if b =? 0 then Raise ZeroDivisionError
  else
    let q := SFdiv prec emax (exact_int a) (exact_int b) in
    Ok (if is_inf q then None else Some q).

Definition f_sub (x y : float) : float := SFsub prec emax x y.

(** What a call of [run_test] does: it returns, having appended to the
    list it was given, or it raises. *)
Inductive test_outcome : Type :=
| returned (accuracies_accumulator : list float)
| raised (e : exn)
| raised_integer_division_result_too_large_for_a_float.

Section Test.
Context {K : Type} `{Countable K}.

Definition run_test (hamlet : list K) (accuracies_accumulator : list float) : test_outcome :=
  let des : @DES K _ _ MT19937.state :=
    __init__ (threshold_int 100) _rel_err_tol_default _fail_prob_default 42 in
  let o := distinct des (Some <$> hamlet) (Z.of_nat (length hamlet)) false 10 in
  match value o with
  | Raise e => raised e
  | Ok count =>
      let des := instance o in
      let actual_distinct_count := len (list_to_set hamlet) in
      match get_threshold des (Z.of_nat (length hamlet)) with
      | Raise e => raised e
      | Ok act_thresh =>
          if negb (act_thresh =? 100) then raised AssertionError
          else
            let act_thresh_hit_count := get_threshold_hit_count des in
            if negb (act_thresh_hit_count =? 6) then raised AssertionError
            else
              let error := Z.abs (actual_distinct_count - count) in
              match int_truediv error actual_distinct_count with
              | Raise e => raised e
              | Ok None => raised_integer_division_result_too_large_for_a_float
              | Ok (Some q) =>
                  let accuracy := f_sub f_one q in
                  returned (accuracies_accumulator ++ [accuracy])
              end
      end
  end.

End Test.

(** * What the properties speak of *)

(** ** The values of [cur_probability]

    [cur_probability] starts at 1.0 and is only ever divided by 2.0. *)

(** 1.0 halved [k] times. *)
Definition halved (k : nat) : float := Nat.iter k halve f_one.

(** Binary64 holds [2^-k] down to [k = 1074]. *)
Definition min_exponent : nat := 1074.

Definition float_beq (x y : float) : bool :=
  match x, y with
  | S754_zero s, S754_zero s' => Bool.eqb s s'
  | S754_infinity s, S754_infinity s' => Bool.eqb s s'
  | S754_nan, S754_nan => true
  | S754_finite s m e, S754_finite s' m' e' =>
      Bool.eqb s s' && Pos.eqb m m' && Z.eqb e e'
  | _, _ => false
  end.

(** A float that is not negative: [+0.0] or a positive finite number. *)
Definition nonneg_finite (x : float) : bool :=
  match x with
  | S754_zero false | S754_finite false _ _ => true
  | _ => false
  end.

(** The positive number [2^a]. *)
Fixpoint pow2_pos (a : nat) : positive :=
  match a with
  | O => 1%positive
  | S a' => xO (pow2_pos a')
  end.

(** The binary64 number [2^-k], for [k] up to 1074: the mantissa is a
    power of two, with 53 digits while the number is normal. *)
Definition power_of_two (k : nat) : float :=
  let a := if (k <=? 1022)%nat then 52%nat else (min_exponent - k)%nat in
  S754_finite false (pow2_pos a) (- Z.of_nat k - Z.of_nat a).

(** What is checked of the [k]-th halving [p] of 1.0: it is not negative,
    at most 1.0, not below its own half, and it is exactly the binary64
    number [2^-k] while that exists and [+0.0] afterwards. *)
Definition halving_ok (k : nat) (p : float) : bool :=
  nonneg_finite p
  && f_le p f_one
  && f_le (halve p) p
  && (if (k <=? min_exponent)%nat
      then float_beq p (dyadic 1 (- Z.of_nat k)) && float_beq p (power_of_two k)
           && f_lt f_zero p
      else float_beq p f_zero).

Fixpoint halvings_ok (n k : nat) (p : float) : bool :=
  match n with
  | O => true
  | S n' => halving_ok k p && halvings_ok n' (S k) (halve p)
  end.

(** The sign bit is clear, or the float is a NaN. *)
Definition sign_clear (x : float) : bool :=
  match x with
  | S754_zero s | S754_infinity s | S754_finite s _ _ => negb s
  | S754_nan => true
  end.

(** ** The arguments and the value of [calculate_threshold] *)

Definition in_unit_interval (x : float) : bool := f_lt f_zero x && f_lt x f_one.

Section ThresholdExpression.
Variable libm_pow : float -> float -> float.
Variable libm_log : float -> float.

(** The condition of the three checks. *)
Definition invalid_arguments
  (stream_size : Z) (relative_error_tolerance failure_probability : float) : bool :=
  f_le relative_error_tolerance f_zero || f_ge relative_error_tolerance f_one
  || (f_le failure_probability f_zero || f_ge failure_probability f_one)
  || (stream_size <=? 0).

(** The [return] expression. *)
Definition threshold_expression
  (stream_size : Z) (relative_error_tolerance failure_probability : float) : result Z :=
  sq ← math_pow_2 libm_pow relative_error_tolerance;
  lhs ← truediv f_twelve sq;
  n ← float_of_int stream_size;
  arg ← truediv (f_mul f_eight n) failure_probability;
  rhs ← math_log libm_log arg;
  math_ceil (f_mul lhs rhs).


End ThresholdExpression.

(** ** The steps of a call *)

Section Specification.
Context {K : Type} `{Countable K}.
Context {rng : Type} `{RandomSource rng}.
#[local] Abbreviation DES := (@DES K _ _ rng) (only parsing).
#[local] Abbreviation outcome := (@outcome K _ _ rng) (only parsing).
#[local] Abbreviation observation := (@observation K _ _ rng) (only parsing).

(** *** The per-item update in the words of the specification

    Steps 3a, 3b and 3c of [estimateDistinct], written as functions of the
    instance. *)

(** [n] successive uniform draws. *)
Fixpoint sample (n : nat) (g : rng) : list float * rng :=
  match n with
  | O => ([], g)
  | S n' =>
      let '(x, g) := random g in
      let '(xs, g) := sample n' g in
      (x :: xs, g)
  end.

(** An element is retained only if its draw is at least 0.5. *)
Fixpoint retain (vs : list K) (xs : list float) : list K :=
  match vs, xs with
  | v :: vs', x :: xs' => if f_ge x f_half then v :: retain vs' xs' else retain vs' xs'
  | _, _ => []
  end.

(** 3a: an item that is present is removed. *)
Definition remove_if_present (item : K) (self : DES) : DES :=
  if decide (item ∈ acc_set self)
  then set_acc_set (acc_set self ∖ {[item]}) self
  else self.

(** 3b: one draw; the item is inserted iff the draw is less than the
    retention probability. *)
Definition insert_with_retention_probability (item : K) (self : DES) : DES :=
  let '(x, g) := random (rand self) in
  let self := set_rand g self in
  if f_lt x (cur_probability self)
  then set_acc_set ({[item]} ∪ acc_set self) self
  else self.

(** 3c: the down-sample event: one fresh draw for every element of the
    accumulator, the retention probability halved, the event counted. *)
Definition down_sample_event (self : DES) : DES :=
  let vs := elements (acc_set self) in
  let '(xs, g) := sample (length vs) (rand self) in
  let self := set_rand g self in
  let self := set_acc_set (list_to_set (retain vs xs)) self in
  let self := set_cur_probability (halve (cur_probability self)) self in
  set_threshold_hit_count (_threshold_hit_count self + 1) self.

Definition per_item_update (thresh : Z) (item : K) (self : DES) : DES :=
  let self := remove_if_present item self in
  let self := insert_with_retention_probability item self in
  if thresh <=? len (acc_set self) then down_sample_event self else self.

Definition state_of (o : observation) : DES :=
  match o with
  | updated self => self
  | polled self => self
  end.

(** *** The instances that can be looked at *)

(** The instances that can be looked at: a new one, and every instance
    that [reset], a call of [distinct] or an observation of such a call
    gives from one of them. *)
Inductive reachable : DES -> Prop :=
| reachable_init (threshold : _threshold_type) (e d : float) (s : Z) :
    reachable (__init__ threshold e d s)
| reachable_reset (self : DES) :
    reachable self -> reachable (reset self)
| reachable_distinct (self : DES) (stream : list (option K)) (stream_size : Z)
    (reset_state : bool) (poll_rate : Z) :
    reachable self ->
    reachable (instance (distinct self stream stream_size reset_state poll_rate))
| reachable_observed (self : DES) (stream : list (option K)) (stream_size : Z)
    (reset_state : bool) (poll_rate : Z) (o : observation) :
    reachable self ->
    o ∈ observed (distinct self stream stream_size reset_state poll_rate) ->
    reachable (state_of o).

(** [cur_probability] is 1.0 halved [_threshold_hit_count] times. *)
Definition halved_as_counted (self : DES) : Prop :=
  0 <= _threshold_hit_count self /\
  cur_probability self = halved (Z.to_nat (_threshold_hit_count self)).

(** From one observation to the next the probability does not increase;
    it is either left alone together with the counter, or halved while the
    counter goes up by one. *)
Definition halving_step (a b : DES) : Prop :=
  f_le (cur_probability b) (cur_probability a) = true /\
  ((cur_probability b = cur_probability a /\
    _threshold_hit_count b = _threshold_hit_count a) \/
   (cur_probability b = halve (cur_probability a) /\
    _threshold_hit_count b = _threshold_hit_count a + 1)).

Fixpoint linked (R : DES -> DES -> Prop) (a : DES) (l : list DES) : Prop :=
  match l with
  | [] => True
  | b :: l' => R a b /\ linked R b l'
  end.

(** The instances of a call in order: its observations, then the instance
    it leaves. *)
Definition history {A} (o : outcome A) : list DES :=
  map state_of (observed o) ++ [instance o].

(** *** Replaying a run, and the items of a stream *)

Definition configuration (self : DES) : _threshold_type * float * float * Z :=
  (_threshold self, relative_error_tolerance self, failure_probability self, seed self).

(** The values a call stores at its polls, in order. *)
Definition intermediate_estimates {A} (o : outcome A) : list Z :=
  omap (fun ob => match ob with
                  | polled s => Some (distinct_item_count s)
                  | updated _ => None
                  end) (observed o).

(** The block applied to the items of a list, one after the other. *)
Definition process (thresh : Z) (items : list K) (self : DES) : DES :=
  foldl (fun s item => snd (update thresh item s)) self items.

(** Two instances that differ at most in the published estimate. *)
Definition same_sample (a b : DES) : Prop :=
  set_distinct_item_count 0 a = set_distinct_item_count 0 b.

End Specification.

Arguments reachable {K _ _ rng _} self.

(** ** The draws of the generator, and the polls of a call *)

(** [random()] gives a float below 1.0, whatever the state of the
    generator. *)
Definition unit_draws (rng : Type) `{RandomSource rng} : Prop :=
  forall g : rng, f_lt (fst (random g)) f_one = true.

(** The kinds of the observations that follow the item at position [j]
    (from 0) of a stream read with a given poll rate: the observation after
    its block ([false]), and a poll ([true]) when [j] is a multiple of the
    rate. *)
Definition observations_of_item (poll_rate : Z) (j : nat) : list bool :=
  false :: (if Z.of_nat j mod poll_rate =? 0 then [true] else []).

Definition poll_schedule (poll_rate : Z) (n : nat) : list bool :=
  flat_map (observations_of_item poll_rate) (seq 0 n).

Section Observations.
Context {K : Type} `{Countable K}.
Context {rng : Type} `{RandomSource rng}.

Definition is_poll (o : @observation K _ _ rng) : bool :=
  match o with
  | polled _ => true
  | updated _ => false
  end.

End Observations.

(** ** Runs with CPython's generator

    Instances over integer items that draw from [MT19937], with the
    default tolerances 0.1 and 0.05. *)

Definition f_0_1 : float := S754_finite false 7205759403792794 (-56).
Definition f_0_05 : float := S754_finite false 7205759403792794 (-57).

Definition des (threshold : _threshold_type) (seed : Z) : @DES Z _ _ MT19937.state :=
  __init__ threshold f_0_1 f_0_05 seed.

(** [DES(threshold=100, seed=42)], and a stream of fourteen items, twelve
    of them distinct. *)
Definition des_100_42 : @DES Z _ _ MT19937.state := des (threshold_int 100) 42.
Definition fourteen : list (option Z) :=
  Some <$> [1; 2; 3; 1; 2; 4; 5; 6; 7; 8; 9; 10; 11; 12].

(** [DES(threshold=1, seed=0)] and [DES(threshold=1, seed=42)]. *)
Definition des_1_0 : @DES Z _ _ MT19937.state := des (threshold_int 1) 0.
Definition des_1_42 : @DES Z _ _ MT19937.state := des (threshold_int 1) 42.

(** [DES(threshold=lambda n, e, d: n, seed=42)]: the threshold is the
    declared size. *)
Definition des_size_42 : @DES Z _ _ MT19937.state :=
  des (threshold_callable (fun n _ _ => Ok n)) 42.



(** The values libm gives at the two arguments met by
    [calculate_threshold(1, 0.5, 0.5)]: [pow(0.5, 2.0)] is 0.25 and
    [log(16.0)] is 2.772588722239781. *)
Definition pow_at_half : float -> float -> float := fun _ _ => dyadic 1 (-2).
Definition log_at_16 : float -> float := fun _ => S754_finite false 6243314768165359 (-51).

(** The value libm gives for [pow(2^-600, 2.0)]: the exact power
    [2^-1200] is below the smallest binary64 number, the result is 0.0. *)
Definition pow_at_tiny : float -> float -> float := fun _ _ => f_zero.

Definition five : list (option Z) := Some <$> [1; 2; 3; 4; 5].

(** [DES(threshold=lambda n, e, d: n, seed=42)] after [distinct([1], 5)]. *)
Definition used_size_42 : @DES Z _ _ MT19937.state :=
  instance (distinct des_size_42 [Some 1] 5 false 10).


(** The items of [fourteen], and [DES(threshold=100, seed=42)] after
    [distinct] on them. *)
Definition fourteen_items : list Z := [1; 2; 3; 1; 2; 4; 5; 6; 7; 8; 9; 10; 11; 12].

Definition used_100_42 : @DES Z _ _ MT19937.state :=
  instance (distinct des_100_42 fourteen 14 false 10).

(** * Properties *)

(** ** The halvings of 1.0 *)

Lemma float_beq_eq (x y : float) : float_beq x y = true -> x = y.
Proof.
  destruct x as [s|s| |s m e], y as [s'|s'| |s' m' e']; cbn; try discriminate.
  - intros E. apply Bool.eqb_prop in E. congruence.
  - intros E. apply Bool.eqb_prop in E. congruence.
  - reflexivity.
  - intros E. apply andb_prop in E as [E E3]. apply andb_prop in E as [E1 E2].
    apply Bool.eqb_prop in E1. apply Pos.eqb_eq in E2. apply Z.eqb_eq in E3.
    congruence.
Qed.

Lemma iter_halve_shift (j : nat) (p : float) :
  Nat.iter j halve (halve p) = halve (Nat.iter j halve p).
Proof.
  induction j as [|j IH]; [reflexivity|].
  rewrite !Nat.iter_succ. now rewrite IH.
Qed.

Lemma halvings_ok_nth (n : nat) :
  forall k p, halvings_ok n k p = true ->
  forall j, (j < n)%nat -> halving_ok (k + j) (Nat.iter j halve p) = true.
Proof.
  induction n as [|n IH]; intros k p Hn j Hj; [lia|].
  cbn [halvings_ok] in Hn. apply andb_prop in Hn as [H0 Hn].
  destruct j as [|j].
  - now rewrite Nat.add_0_r.
  - replace (k + S j)%nat with (S k + j)%nat by lia.
    rewrite Nat.iter_succ, <- iter_halve_shift. apply IH; [assumption | lia].
Qed.

(** The table of the halvings of 1.0, down to the first that is zero. *)
Lemma halvings_table : halvings_ok 1077 0 f_one = true.
Proof. vm_compute. reflexivity. Qed.

Lemma halved_1075 : halved 1075 = f_zero.
Proof. vm_compute. reflexivity. Qed.

Lemma halved_zero (k : nat) : (min_exponent < k)%nat -> halved k = f_zero.
Proof.
  intros Hk. replace k with ((k - 1075) + 1075)%nat by (unfold min_exponent in Hk; lia).
  induction (k - 1075)%nat as [|d IH].
  - exact halved_1075.
  - change (S d + 1075)%nat with (S (d + 1075)).
    unfold halved in *. rewrite Nat.iter_succ, IH. reflexivity.
Qed.

Lemma halved_ok (k : nat) : halving_ok k (halved k) = true.
Proof.
  destruct (Nat.lt_ge_cases k 1077) as [Hk|Hk].
  - apply (halvings_ok_nth _ _ _ halvings_table k Hk).
  - rewrite halved_zero by (unfold min_exponent; lia).
    unfold halving_ok.
    replace (k <=? min_exponent)%nat with false
      by (symmetry; apply Nat.leb_gt; unfold min_exponent; lia).
    reflexivity.
Qed.

Lemma halved_nonneg (k : nat) : nonneg_finite (halved k) = true.
Proof.
  pose proof (halved_ok k) as Hk. unfold halving_ok in Hk.
  repeat (apply andb_prop in Hk as [Hk _]). exact Hk.
Qed.


Lemma halved_succ_le (k : nat) : f_le (halved (S k)) (halved k) = true.
Proof.
  pose proof (halved_ok k) as Hk. unfold halving_ok in Hk.
  apply andb_prop in Hk as [Hk _]. apply andb_prop in Hk as [_ Hk]. exact Hk.
Qed.

Lemma halved_dyadic (k : nat) :
  (k <= min_exponent)%nat -> halved k = dyadic 1 (- Z.of_nat k).
Proof.
  intros Hle. pose proof (halved_ok k) as Hk. unfold halving_ok in Hk.
  apply andb_prop in Hk as [_ Hk].
  apply Nat.leb_le in Hle. rewrite Hle in Hk.
  apply andb_prop in Hk as [Hk _]. apply andb_prop in Hk as [Hk _].
  now apply float_beq_eq.
Qed.

Lemma halved_power_of_two (k : nat) :
  (k <= min_exponent)%nat -> halved k = power_of_two k.
Proof.
  intros Hle. pose proof (halved_ok k) as Hk. unfold halving_ok in Hk.
  apply andb_prop in Hk as [_ Hk].
  apply Nat.leb_le in Hle. rewrite Hle in Hk.
  apply andb_prop in Hk as [Hk _]. apply andb_prop in Hk as [_ Hk].
  now apply float_beq_eq.
Qed.

Lemma halved_positive (k : nat) :
  (k <= min_exponent)%nat -> f_lt f_zero (halved k) = true.
Proof.
  intros Hle. pose proof (halved_ok k) as Hk. unfold halving_ok in Hk.
  apply andb_prop in Hk as [_ Hk].
  apply Nat.leb_le in Hle. rewrite Hle in Hk.
  now apply andb_prop in Hk as [_ Hk].
Qed.

(** ** Signs

    The sign of a quotient of floats that are not negative. *)

Lemma binary_round_aux_sign (m e : Z) (l : location) :
  sign_clear (binary_round_aux prec emax false m e l) = true.
Proof.
  unfold binary_round_aux.
  destruct (shr_fexp prec emax m e l) as [mrs' e'].
  destruct (shr_fexp prec emax _ e' loc_Exact) as [mrs'' e''].
  destruct (shr_m mrs''); [reflexivity | | reflexivity].
  destruct (e'' <=? emax - prec); reflexivity.
Qed.

Lemma float_of_int_sign (n : Z) (x : float) :
  0 <= n -> float_of_int n = Ok x -> sign_clear x = true.
Proof.
  unfold float_of_int, dyadic, binary_normalize. intros Hn.
  destruct n as [|n|n]; [| |lia].
  - cbn. intros [= <-]. reflexivity.
  - unfold binary_round.
    destruct (shl_align _ _ _) as [mz ez].
    pose proof (binary_round_aux_sign (Z.pos mz) ez loc_Exact) as Hs.
    destruct (is_inf _); [discriminate|]. now intros [= <-].
Qed.

Lemma div_sign (x y : float) :
  sign_clear x = true -> nonneg_finite y = true ->
  sign_clear (SFdiv prec emax x y) = true.
Proof.
  intros Hx Hy.
  destruct y as [[]|[]| |[] my ey]; try discriminate Hy.
  - destruct x as [[]|[]| |[] mx ex]; try discriminate Hx; reflexivity.
  - destruct x as [[]|[]| |[] mx ex]; try discriminate Hx; try reflexivity.
    unfold SFdiv.
    destruct (SFdiv_core_binary _ _ _ _ _ _) as [[mz ez] lz].
    apply binary_round_aux_sign.
Qed.

Lemma math_floor_sign (x : float) (v : Z) :
  sign_clear x = true -> math_floor x = Ok v -> 0 <= v.
Proof.
  destruct x as [s|s| |[] m e]; cbn; try discriminate.
  - intros _ [= <-]. lia.
  - intros _ [= <-]. unfold floor_dyadic. apply Z.shiftl_nonneg. lia.
Qed.

(** *** Exact quotients

    A non-negative integer below [2^53] is a float, and its quotient by
    [2^-k] is the float [n * 2^k], when that is below [2^1024]: nothing is
    rounded. *)

Lemma fexp_canonical (d e : Z) : d = 53 -> -1074 <= e -> fexp prec emax (d + e) - e = 0.
Proof. intros -> He. unfold fexp, emin, prec, emax. lia. Qed.

Lemma round_canonical (s : bool) (m : positive) (e : Z) :
  Z.pos (digits2_pos m) = 53 -> -1074 <= e ->
  binary_round_aux prec emax s (Z.pos m) e loc_Exact =
    if e <=? 971 then S754_finite s m e else S754_infinity s.
Proof.
  intros Hd He. unfold binary_round_aux, shr_fexp.
  cbn [Zdigits2 shr_record_of_loc].
  rewrite (fexp_canonical _ e Hd He). cbn [shr shr_m loc_of_shr_record round_nearest_even].
  cbn [Zdigits2]. rewrite (fexp_canonical _ e Hd He). cbn [shr shr_m].
  reflexivity.
Qed.

Lemma round_double (s : bool) (m : positive) (e : Z) :
  Z.pos (digits2_pos m) = 53 -> -1075 <= e ->
  binary_round_aux prec emax s (Z.pos m~0) e loc_Exact =
    if e + 1 <=? 971 then S754_finite s m (e + 1) else S754_infinity s.
Proof.
  intros Hd He. unfold binary_round_aux, shr_fexp.
  cbn [Zdigits2 shr_record_of_loc digits2_pos].
  assert (H1 : fexp prec emax (Z.pos (Pos.succ (digits2_pos m)) + e) - e = 1).
  { rewrite Pos2Z.inj_succ, Hd. unfold fexp, emin, prec, emax. lia. }
  rewrite H1.
  cbn [shr SpecFloat.iter_pos shr_1 orb shr_m loc_of_shr_record round_nearest_even fst snd].
  cbn [Zdigits2]. rewrite (fexp_canonical _ (e + 1) Hd ltac:(lia)). cbn [shr shr_m].
  reflexivity.
Qed.

Lemma iter_xO_value (m d : positive) : Z.pos (Pos.iter xO m d) = Z.pos m * 2 ^ Z.pos d.
Proof.
  induction d as [|d IH] using Pos.peano_ind.
  - cbn [Pos.iter]. lia.
  - rewrite Pos.iter_succ, Pos2Z.inj_succ, Z.pow_succ_r by lia.
    rewrite (Pos2Z.inj_xO (Pos.iter xO m d)), IH. lia.
Qed.

Lemma iter_xO_digits (m d : positive) :
  Z.pos (digits2_pos (Pos.iter xO m d)) = Z.pos (digits2_pos m) + Z.pos d.
Proof.
  induction d as [|d IH] using Pos.peano_ind.
  - cbn [Pos.iter digits2_pos]. lia.
  - rewrite Pos.iter_succ. cbn [digits2_pos]. rewrite !Pos2Z.inj_succ, IH. lia.
Qed.

Lemma pow2_succ (d : Z) :
  0 < d -> 2 ^ (Z.succ d - 1) = 2 * 2 ^ (d - 1) /\ 2 ^ Z.succ d = 2 * 2 ^ d.
Proof.
  intros Hd. split.
  - replace (Z.succ d - 1) with (Z.succ (d - 1)) by lia. apply Z.pow_succ_r. lia.
  - apply Z.pow_succ_r. lia.
Qed.

Lemma digits2_pos_bounds (p : positive) :
  2 ^ (Z.pos (digits2_pos p) - 1) <= Z.pos p < 2 ^ Z.pos (digits2_pos p).
Proof.
  induction p as [p IH|p IH|]; cbn [digits2_pos].
  - rewrite Pos2Z.inj_succ, (Pos2Z.inj_xI p).
    destruct (pow2_succ (Z.pos (digits2_pos p)) ltac:(lia)) as [H1 H2].
    rewrite H1, H2. lia.
  - rewrite Pos2Z.inj_succ, (Pos2Z.inj_xO p).
    destruct (pow2_succ (Z.pos (digits2_pos p)) ltac:(lia)) as [H1 H2].
    rewrite H1, H2. lia.
  - cbn. lia.
Qed.

Lemma float_of_int_exact (n : Z) :
  0 < n < 2 ^ 53 ->
  exists (m : positive) (e : Z),
    float_of_int n = Ok (S754_finite false m e) /\
    Z.pos (digits2_pos m) = 53 /\ -52 <= e <= 0 /\ Z.pos m = n * 2 ^ (- e).
Proof.
  intros [Hpos Hlt]. destruct n as [|p|p]; try lia.
  pose proof (digits2_pos_bounds p) as [Hlo _].
  assert (Hd : Z.pos (digits2_pos p) <= 53).
  { destruct (Z.le_gt_cases (Z.pos (digits2_pos p)) 53) as [|Hgt]; [assumption|].
    assert (2 ^ 53 <= 2 ^ (Z.pos (digits2_pos p) - 1)) by (apply Z.pow_le_mono_r; lia).
    lia. }
  unfold float_of_int, dyadic, binary_normalize, binary_round, shl_align.
  assert (Hf : fexp prec emax (Z.pos (digits2_pos p) + 0) - 0 = Z.pos (digits2_pos p) - 53).
  { unfold fexp, emin, prec, emax. lia. }
  rewrite Hf.
  destruct (Z.pos (digits2_pos p) - 53) as [|q|q] eqn:Hq; try lia.
  - exists p, 0. rewrite round_canonical by lia. cbn. repeat split; lia.
  - assert (Hfe : fexp prec emax (Z.pos (digits2_pos p) + 0) = Z.neg q).
    { unfold fexp, emin, prec, emax. lia. }
    rewrite Hfe.
    exists (Pos.iter xO p q), (Z.neg q).
    rewrite round_canonical by (rewrite ?iter_xO_digits; lia).
    replace (Z.neg q <=? 971) with true by (symmetry; apply Z.leb_le; lia).
    cbn [is_inf]. split; [reflexivity|].
    rewrite iter_xO_digits, iter_xO_value. cbn [Z.opp]. repeat split; lia.
Qed.

Lemma pow2_pos_value (a : nat) : Z.pos (pow2_pos a) = 2 ^ Z.of_nat a.
Proof.
  induction a as [|a IH]; [reflexivity|].
  cbn [pow2_pos]. rewrite Nat2Z.inj_succ, Z.pow_succ_r by lia.
  rewrite (Pos2Z.inj_xO (pow2_pos a)), IH. reflexivity.
Qed.

Lemma pow2_pos_digits (a : nat) : Z.pos (digits2_pos (pow2_pos a)) = Z.of_nat a + 1.
Proof.
  induction a as [|a IH]; [reflexivity|].
  cbn [pow2_pos digits2_pos]. rewrite Pos2Z.inj_succ, IH. lia.
Qed.

Lemma new_location_zero (nb : Z) : new_location nb 0 = loc_Exact.
Proof. unfold new_location. destruct (Z.even nb); reflexivity. Qed.

Lemma div_by_pow2 (m : positive) (e : Z) (a : nat) (ey : Z) :
  Z.pos (digits2_pos m) = 53 -> -52 <= e <= 0 -> Z.of_nat a + ey <= 0 ->
  SFdiv prec emax (S754_finite false m e) (S754_finite false (pow2_pos a) ey) =
    if e - ey - Z.of_nat a <=? 971
    then S754_finite false m (e - ey - Z.of_nat a)
    else S754_infinity false.
Proof.
  intros Hd He Hk. unfold SFdiv, SFdiv_core_binary. cbn [Zdigits2 xorb].
  rewrite Hd, pow2_pos_digits.
  assert (Hmin : Z.min (fexp prec emax (53 + e - (Z.of_nat a + 1 + ey))) (e - ey) =
                 e - ey - Z.of_nat a - 1).
  { unfold fexp, emin, prec, emax. lia. }
  rewrite Hmin.
  replace (e - ey - (e - ey - Z.of_nat a - 1)) with (Z.pos (Pos.of_succ_nat a)) by lia.
  rewrite Z.shiftl_mul_pow2 by lia.
  rewrite pow2_pos_value.
  assert (Hx : Z.pos m * 2 ^ Z.pos (Pos.of_succ_nat a) = Z.pos m~0 * 2 ^ Z.of_nat a).
  { rewrite Zpos_P_of_succ_nat, Z.pow_succ_r by lia. rewrite (Pos2Z.inj_xO m). lia. }
  rewrite Hx.
  assert (Hy : 0 < 2 ^ Z.of_nat a) by (apply Z.pow_pos_nonneg; lia).
  destruct (Z.div_eucl (Z.pos m~0 * 2 ^ Z.of_nat a) (2 ^ Z.of_nat a)) as [q r] eqn:Hdiv.
  assert (Hq : q = Z.pos m~0).
  { transitivity ((Z.pos m~0 * 2 ^ Z.of_nat a) / 2 ^ Z.of_nat a).
    - unfold Z.div. now rewrite Hdiv.
    - apply Z.div_mul. lia. }
  assert (Hr : r = 0).
  { transitivity ((Z.pos m~0 * 2 ^ Z.of_nat a) mod 2 ^ Z.of_nat a).
    - unfold Z.modulo. now rewrite Hdiv.
    - apply Z.mod_mul. lia. }
  subst q r. rewrite new_location_zero.
  rewrite round_double by lia.
  replace (e - ey - Z.of_nat a - 1 + 1) with (e - ey - Z.of_nat a) by lia.
  reflexivity.
Qed.

Lemma floor_of_quotient_exact (n : Z) (k : nat) :
  0 <= n < 2 ^ 53 -> (k <= min_exponent)%nat ->
  floor_of_quotient n (halved k) =
    if n * 2 ^ Z.of_nat k <? 2 ^ 1024
    then Ok (n * 2 ^ Z.of_nat k)
    else Raise (OverflowError cannot_convert_float_infinity_to_integer).
Proof.
  intros [Hn0 Hn] Hk. rewrite (halved_power_of_two k Hk). unfold power_of_two.
  set (a := if (k <=? 1022)%nat then 52%nat else (min_exponent - k)%nat).
  assert (Ha : Z.of_nat a + (- Z.of_nat k - Z.of_nat a) <= 0) by lia.
  unfold floor_of_quotient, mbind, result_bind.
  destruct (Z.eq_dec n 0) as [->|Hne].
  - cbn. replace (0 <? 2 ^ 1024) with true by reflexivity. reflexivity.
  - destruct (float_of_int_exact n ltac:(lia)) as (m & e & -> & Hd & He & Hm).
    unfold truediv. cbn [f_eq SFeqb SFcompare f_zero].
    rewrite (div_by_pow2 m e a _ Hd He Ha).
    replace (e - (- Z.of_nat k - Z.of_nat a) - Z.of_nat a) with (e + Z.of_nat k) by lia.
    pose proof (digits2_pos_bounds m) as [Hlo Hhi]. rewrite Hd in Hlo, Hhi.
    change (53 - 1) with 52 in Hlo.
    destruct (Z.le_gt_cases 0 (e + Z.of_nat k)) as [Ht|Ht].
    + assert (Hv : Z.pos m * 2 ^ (e + Z.of_nat k) = n * 2 ^ Z.of_nat k).
      { rewrite Hm, <- Z.mul_assoc, <- Z.pow_add_r by lia. f_equal. f_equal. lia. }
      destruct (e + Z.of_nat k <=? 971) eqn:Hfin.
      * apply Z.leb_le in Hfin. cbn [math_floor signed]. unfold floor_dyadic.
        rewrite Z.shiftl_mul_pow2, Hv by lia.
        replace (n * 2 ^ Z.of_nat k <? 2 ^ 1024) with true; [reflexivity|].
        symmetry. apply Z.ltb_lt. rewrite <- Hv.
        assert (2 ^ (e + Z.of_nat k) <= 2 ^ 971) by (apply Z.pow_le_mono_r; lia).
        assert (0 < 2 ^ (e + Z.of_nat k)) by (apply Z.pow_pos_nonneg; lia).
        change (2 ^ 1024) with (2 ^ 53 * 2 ^ 971). nia.
      * apply Z.leb_gt in Hfin. cbn [math_floor].
        replace (n * 2 ^ Z.of_nat k <? 2 ^ 1024) with false; [reflexivity|].
        symmetry. apply Z.ltb_ge. rewrite <- Hv.
        assert (2 ^ 972 <= 2 ^ (e + Z.of_nat k)) by (apply Z.pow_le_mono_r; lia).
        change (2 ^ 1024) with (2 ^ 52 * 2 ^ 972). nia.
    + replace (e + Z.of_nat k <=? 971) with true by (symmetry; apply Z.leb_le; lia).
      cbn [math_floor signed]. unfold floor_dyadic.
      assert (Hv : Z.pos m = n * 2 ^ Z.of_nat k * 2 ^ (- (e + Z.of_nat k))).
      { rewrite Hm, <- Z.mul_assoc, <- Z.pow_add_r by lia. f_equal. f_equal. lia. }
      assert (Hs : Z.shiftl (Z.pos m) (e + Z.of_nat k) = n * 2 ^ Z.of_nat k).
      { rewrite Z.shiftl_div_pow2 by lia.
        rewrite Hv at 1. apply Z.div_mul. apply Z.pow_nonzero; lia. }
      rewrite Hs.
      replace (n * 2 ^ Z.of_nat k <? 2 ^ 1024) with true; [reflexivity|].
      symmetry. apply Z.ltb_lt.
      assert (0 < 2 ^ (- (e + Z.of_nat k))) by (apply Z.pow_pos_nonneg; lia).
      assert (n * 2 ^ Z.of_nat k < 2 ^ 53) by nia.
      assert (2 ^ 53 < 2 ^ 1024) by (apply Z.pow_lt_mono_r; lia).
      lia.
Qed.

(** ** The open interval (0, 1) *)

(** For a float that is not a NaN, the two comparisons of a check of
    [calculate_threshold] say that it is outside (0, 1). *)
Lemma outside_unit_interval (x : float) :
  is_nan x = false ->
  f_le x f_zero || f_ge x f_one = negb (in_unit_interval x).
Proof.
  destruct x as [[]|[]| |[] m e]; try reflexivity; [discriminate|]. intros _.
  unfold in_unit_interval, f_le, f_ge, f_lt, SFleb, SFltb, SFcompare, f_zero, f_one.
  cbn [orb andb negb].
  assert (Hm : Pos.compare_cont Eq 4503599627370496 m =
               CompOpp (Pos.compare_cont Eq m 4503599627370496))
    by (symmetry; apply (Pos.compare_cont_antisym m 4503599627370496 Eq)).
  rewrite (Z.compare_antisym e (-52)), Hm.
  destruct (e ?= -52); cbn [CompOpp]; try reflexivity.
  destruct (Pos.compare_cont Eq m 4503599627370496); reflexivity.
Qed.

(** ** [calculate_threshold] *)

Section ThresholdProperties.
Variable libm_pow : float -> float -> float.
Variable libm_log : float -> float.

Lemma calculate_threshold_checks (n : Z) (e d : float) :
  calculate_threshold libm_pow libm_log n e d =
    if invalid_arguments n e d then Raise ValueError else threshold_expression libm_pow libm_log n e d.
Proof.
  unfold calculate_threshold, invalid_arguments, threshold_expression.
  destruct (f_le e f_zero || f_ge e f_one); [reflexivity|].
  destruct (f_le d f_zero || f_ge d f_one); [reflexivity|].
  destruct (n <=? 0); reflexivity.
Qed.




End ThresholdProperties.

(** ** The class [DES] *)

Section Properties.
Context {K : Type} `{Countable K}.
Context {rng : Type} `{RandomSource rng}.
#[local] Abbreviation DES := (@DES K _ _ rng) (only parsing).
#[local] Abbreviation outcome := (@outcome K _ _ rng) (only parsing).
#[local] Abbreviation observation := (@observation K _ _ rng) (only parsing).

Lemma comprehension_sample (vs : list K) (self : DES) :
  comprehension vs self =
    (Ok (retain vs (fst (sample (length vs) (rand self)))),
     set_rand (snd (sample (length vs) (rand self))) self).
Proof.
  revert self. induction vs as [|v vs IH]; intros self.
  - destruct self; reflexivity.
  - cbn [comprehension sample length].
    unfold mbind, stmt_bind, rand_random.
    destruct (random (rand self)) as [x g] eqn:Hx.
    rewrite IH. cbn [rand set_rand fst snd].
    destruct (sample (length vs) g) as [xs g'] eqn:Hxs.
    cbn [fst snd retain]. unfold mret, stmt_ret.
    destruct self; reflexivity.
Qed.

(** The block of one item, as the steps of the specification followed by
    the check that raises. *)
Lemma update_unfold (thresh : Z) (item : K) (self : DES) :
  update thresh item self =
    let s1 := insert_with_retention_probability item (remove_if_present item self) in
    if thresh <=? len (acc_set s1) then
      let s2 := down_sample_event s1 in
      (if thresh <=? len (acc_set s2)
       then Raise (OverflowError (could_not_down_sample thresh (len (acc_set s2))))
       else Ok tt, s2)
    else (Ok tt, s1).
Proof.
  unfold update, remove_if_present, insert_with_retention_probability.
  unfold mbind, stmt_bind, read, assign, when, rand_random, mret, stmt_ret.
  assert (Hdec : forall (P : Prop) (d : Decision P) (A : Type) (a b : A),
             (if bool_decide P then a else b) = (if decide P then a else b)).
  { intros P d A a b. unfold bool_decide, decide. destruct d; reflexivity. }
  cbv zeta.
  rewrite <- (Hdec (item ∈ acc_set self)).
  destruct (bool_decide (item ∈ acc_set self)).
  all: cbn [rand set_acc_set cur_probability acc_set].
  all: destruct (random (rand self)) as [x g].
  all: cbn [rand set_rand set_acc_set cur_probability acc_set].
  all: destruct (f_lt x (cur_probability self)).
  all: cbn [rand set_rand set_acc_set cur_probability acc_set].
  all: match goal with |- context [?t <=? len ?s] => destruct (t <=? len s) eqn:Hn end.
  all: try reflexivity.
  all: unfold down_sample_event; rewrite comprehension_sample.
  all: cbn [rand set_rand set_acc_set cur_probability acc_set set_threshold_hit_count
            _threshold_hit_count set_cur_probability].
  all: match goal with |- context [sample ?n ?g] => destruct (sample n g) as [xs g'] end.
  all: cbn [fst snd rand set_rand set_acc_set cur_probability acc_set set_threshold_hit_count
            _threshold_hit_count set_cur_probability].
  all: unfold raise.
  all: match goal with |- context [?t <=? len ?s] => destruct (t <=? len s) end.
  all: reflexivity.
Qed.

(** **** The block of one item *)

Lemma update_leaves (thresh : Z) (item : K) (self : DES) :
  snd (update thresh item self) = per_item_update thresh item self.
Proof.
  rewrite update_unfold. unfold per_item_update. cbv zeta.
  destruct (thresh <=? len (acc_set _)); [|reflexivity].
  cbn [snd]. reflexivity.
Qed.

Lemma elem_of_retain (vs : list K) :
  forall (xs : list float) (x : K),
  x ∈ retain vs xs <->
  exists (i : nat) (d : float),
    vs !! i = Some x /\ xs !! i = Some d /\ f_ge d f_half = true.
Proof.
  induction vs as [|v vs IH]; intros xs x; cbn [retain].
  - split; [intros Hx; inversion Hx | intros (i & d & Hv & _); destruct i; discriminate].
  - destruct xs as [|d0 xs].
    + split; [intros Hx; inversion Hx | intros (i & d & _ & Hd & _); destruct i; discriminate].
    + destruct (f_ge d0 f_half) eqn:Hd0.
      * rewrite elem_of_cons, IH. split.
        -- intros [->|(i & d & Hv & Hd & Hge)].
           ++ exists 0%nat, d0. repeat split. exact Hd0.
           ++ exists (S i), d. repeat split; assumption.
        -- intros ([|i] & d & Hv & Hd & Hge); cbn in Hv, Hd.
           ++ left. congruence.
           ++ right. exists i, d. repeat split; assumption.
      * rewrite IH. split.
        -- intros (i & d & Hv & Hd & Hge). exists (S i), d. repeat split; assumption.
        -- intros ([|i] & d & Hv & Hd & Hge); cbn in Hv, Hd.
           ++ congruence.
           ++ exists i, d. repeat split; assumption.
Qed.


Lemma update_ok_below (thresh : Z) (item : K) (self self' : DES) :
  update thresh item self = (Ok tt, self') -> len (acc_set self') < thresh.
Proof.
  rewrite update_unfold. cbv zeta.
  destruct (thresh <=? len (acc_set _)) eqn:H1.
  - destruct (thresh <=? len (acc_set (down_sample_event _))) eqn:H2; [discriminate|].
    intros [= <-]. now apply Z.leb_gt.
  - intros [= <-]. now apply Z.leb_gt.
Qed.

Lemma acc_set_set_distinct_item_count (v : Z) (self : DES) :
  acc_set (set_distinct_item_count v self) = acc_set self.
Proof. reflexivity. Qed.

Lemma while_loop_below (thresh poll_rate : Z) (stream : list (option K)) :
  forall (i : Z) (self : DES) (o : observation),
  o ∈ observed (while_loop thresh poll_rate stream i self) ->
  len (acc_set (state_of o)) < thresh.
Proof.
  induction stream as [|[item|] stream IH]; intros i self o; cbn [while_loop observed].
  - intros Ho. inversion Ho.
  - destruct (update thresh item self) as [[[]|e] self1] eqn:Hu; cbn [observed seen].
    2:{ intros Ho. inversion Ho. }
    pose proof (update_ok_below _ _ _ _ Hu) as Hlt.
    intros Ho. apply elem_of_cons in Ho as [->|Ho]; [exact Hlt|].
    destruct (poll_rate =? 0); [inversion Ho|].
    destruct (i mod poll_rate =? 0).
    + destruct (estimate self1) as [v|e]; [|inversion Ho].
      cbn [observed seen] in Ho.
      apply elem_of_cons in Ho as [->|Ho]; [exact Hlt|].
      exact (IH _ _ _ Ho).
    + exact (IH _ _ _ Ho).
  - intros Ho. inversion Ho.
Qed.

(** C2.  Whatever the stream, the generator and the threshold resolved at
    the start of the call, the accumulator holds fewer elements than the
    threshold at every observation of the call: after the block of every
    item that did not raise, and after every poll. *)
Theorem accumulator_below_threshold
  (self : DES) (stream : list (option K)) (stream_size : Z) (reset_state : bool)
  (poll_rate thresh : Z) (o : observation) :
  get_threshold (if reset_state then reset self else self) stream_size = Ok thresh ->
  0 < thresh ->
  o ∈ observed (distinct self stream stream_size reset_state poll_rate) ->
  len (acc_set (state_of o)) < thresh.
Proof.
  intros Ht Hpos. unfold distinct. rewrite Ht.
  destruct (thresh <=? 0) eqn:Hle; [apply Z.leb_le in Hle; lia|].
  intros Ho.
  assert (Hin : o ∈ observed (while_loop thresh poll_rate stream 0
                                (if reset_state then reset self else self))).
  { destruct (value (while_loop _ _ _ _ _)); [destruct (estimate _)|]; exact Ho. }
  exact (while_loop_below _ _ _ _ _ _ Hin).
Qed.

(** **** Overflow *)

Lemma update_raise_iff (thresh : Z) (item : K) (self : DES) (e : exn) :
  let s1 := insert_with_retention_probability item (remove_if_present item self) in
  let s2 := down_sample_event s1 in
  fst (update thresh item self) = Raise e <->
  thresh <= len (acc_set s1) /\ thresh <= len (acc_set s2) /\
  e = OverflowError (could_not_down_sample thresh (len (acc_set s2))).
Proof.
  cbv zeta. rewrite update_unfold. cbv zeta.
  destruct (thresh <=? len (acc_set _)) eqn:H1.
  - destruct (thresh <=? len (acc_set (down_sample_event _))) eqn:H2; cbn [fst].
    + apply Z.leb_le in H1, H2. split; [intros [= <-]; auto|].
      intros (_ & _ & ->). reflexivity.
    + apply Z.leb_gt in H2. split; [discriminate | lia].
  - apply Z.leb_gt in H1. cbn [fst]. split; [discriminate | lia].
Qed.




(** **** The retention probability along a call *)

Lemma f_le_halved_refl (k : nat) : f_le (halved k) (halved k) = true.
Proof.
  pose proof (halved_nonneg k) as Hn.
  destruct (halved k) as [[]|[]| |[] m e]; try discriminate Hn; [reflexivity|].
  unfold f_le, SFleb, SFcompare. rewrite Z.compare_refl, Pos.compare_cont_refl.
  reflexivity.
Qed.

Lemma halved_as_counted_same (a b : DES) :
  cur_probability b = cur_probability a ->
  _threshold_hit_count b = _threshold_hit_count a ->
  halved_as_counted a -> halved_as_counted b /\ halving_step a b.
Proof.
  intros Hp Hc [Hk0 Ha]. unfold halved_as_counted, halving_step.
  rewrite Hp, Hc. repeat split; try assumption; [|left; split; reflexivity].
  rewrite Ha. apply f_le_halved_refl.
Qed.

Lemma halved_as_counted_down_sample (a b : DES) :
  cur_probability b = halve (cur_probability a) ->
  _threshold_hit_count b = _threshold_hit_count a + 1 ->
  halved_as_counted a -> halved_as_counted b /\ halving_step a b.
Proof.
  intros Hp Hc [Hk0 Ha]. unfold halved_as_counted, halving_step.
  rewrite Hp, Hc, Ha.
  assert (Hs : halve (halved (Z.to_nat (_threshold_hit_count a))) =
               halved (Z.to_nat (_threshold_hit_count a + 1))).
  { rewrite Z2Nat.inj_add by lia. rewrite Nat.add_comm. reflexivity. }
  rewrite Hs. repeat split; [lia | | right; split; reflexivity].
  rewrite Z2Nat.inj_add by lia. rewrite Nat.add_comm. apply halved_succ_le.
Qed.

Lemma update_halving_step (thresh : Z) (item : K) (self : DES) :
  halved_as_counted self ->
  halved_as_counted (snd (update thresh item self)) /\
  halving_step self (snd (update thresh item self)).
Proof.
  rewrite update_leaves.
  unfold per_item_update, remove_if_present, insert_with_retention_probability,
    down_sample_event. cbv zeta.
  destruct (decide (item ∈ acc_set self)).
  all: cbn [rand set_acc_set].
  all: destruct (random (rand self)) as [x g].
  all: cbn [cur_probability set_rand set_acc_set].
  all: destruct (f_lt x (cur_probability self)).
  all: match goal with |- context [?t <=? len ?s] => destruct (t <=? len s) end.
  all: try (apply halved_as_counted_same; reflexivity).
  all: match goal with |- context [sample ?n ?g] => destruct (sample n g) as [xs g'] end.
  all: apply halved_as_counted_down_sample; reflexivity.
Qed.

Lemma while_loop_history (thresh poll_rate : Z) (stream : list (option K)) :
  forall (i : Z) (self : DES),
  halved_as_counted self ->
  linked (fun a b => halving_step a b /\ halved_as_counted b) self
    (history (while_loop thresh poll_rate stream i self)).
Proof.
  induction stream as [|[item|] stream IH]; intros i self Hinv;
    cbn [while_loop]; unfold history; cbn [observed instance map app linked].
  - split; [|exact I]. split; [|exact Hinv].
    now apply (halved_as_counted_same self self).
  - destruct (update_halving_step thresh item self Hinv) as [Hinv1 Hstep1].
    destruct (update thresh item self) as [[[]|e] self1]; cbn [snd] in Hinv1, Hstep1;
      cbn [observed instance seen map app linked]; [|tauto].
    assert (Hself1 : halving_step self1 self1 /\ halved_as_counted self1).
    { split; [|exact Hinv1]. now apply (halved_as_counted_same self1 self1). }
    split; [tauto|].
    destruct (poll_rate =? 0); [cbn [observed instance map app linked]; tauto|].
    destruct (i mod poll_rate =? 0).
    + destruct (estimate self1) as [v|e];
        [|cbn [observed instance map app linked]; tauto].
      cbn [observed instance seen map app linked state_of].
      assert (Hinv2 : halved_as_counted (set_distinct_item_count v self1)) by exact Hinv1.
      split; [split; [|exact Hinv2];
              now apply (halved_as_counted_same self1 (set_distinct_item_count v self1))|].
      exact (IH _ _ Hinv2).
    + exact (IH _ _ Hinv1).
  - split; [|exact I]. split; [|exact Hinv].
    now apply (halved_as_counted_same self self).
Qed.

Lemma linked_last_same (R : DES -> DES -> Prop) (b b' : DES) :
  (forall a, R a b -> R a b') ->
  forall (l : list DES) (a : DES), linked R a (l ++ [b]) -> linked R a (l ++ [b']).
Proof.
  intros Hb l. induction l as [|x l IH]; intros a; cbn [app linked].
  - intros [HR _]. split; [auto | exact I].
  - intros [HR Hl]. split; [exact HR | auto].
Qed.

Lemma linked_Forall (R : DES -> DES -> Prop) (P : DES -> Prop) (l : list DES) :
  forall a, linked (fun a b => R a b /\ P b) a l -> Forall P l.
Proof.
  induction l as [|b l IH]; intros a; cbn [linked]; [constructor|].
  intros [[_ Hb] Hl]. constructor; [exact Hb | exact (IH _ Hl)].
Qed.


Lemma distinct_history (self : DES) (stream : list (option K)) (stream_size : Z)
  (reset_state : bool) (poll_rate : Z) :
  let start := if reset_state then reset self else self in
  halved_as_counted start ->
  linked (fun a b => halving_step a b /\ halved_as_counted b) start
    (history (distinct self stream stream_size reset_state poll_rate)).
Proof.
  cbv zeta. intros Hinv. unfold distinct.
  set (start := if reset_state then reset self else self) in *.
  assert (Hstay : linked (fun a b => halving_step a b /\ halved_as_counted b) start [start]).
  { cbn [linked]. split; [|exact I]. split; [|exact Hinv].
    now apply (halved_as_counted_same start start). }
  destruct (get_threshold start stream_size) as [thresh|e]; [|exact Hstay].
  destruct (thresh <=? 0); [exact Hstay|].
  pose proof (while_loop_history thresh poll_rate stream 0 start Hinv) as Hl.
  destruct (value (while_loop thresh poll_rate stream 0 start)) as [[]|e]; [|exact Hl].
  destruct (estimate _) as [v|e]; [|exact Hl].
  unfold history in *. cbn [observed instance].
  revert Hl. apply linked_last_same.
  intros a [[Hle Hstep] Hc]. exact (conj (conj Hle Hstep) Hc).
Qed.

Lemma reset_halved_as_counted (self : DES) : halved_as_counted (reset self).
Proof. split; [cbn; lia | reflexivity]. Qed.

Lemma reachable_halved_as_counted (self : DES) :
  reachable self -> halved_as_counted self.
Proof.
  induction 1 as [t e d s | self _ _ | self stream n r p _ IH | self stream n r p o _ IH Ho].
  - split; [cbn; lia | reflexivity].
  - apply reset_halved_as_counted.
  - assert (Hstart : halved_as_counted (if r then reset self else self)).
    { destruct r; [apply reset_halved_as_counted | exact IH]. }
    pose proof (linked_Forall _ _ _ _ (distinct_history self stream n r p Hstart)) as Hall.
    unfold history in Hall. apply Forall_app in Hall as [_ Hall].
    now inversion Hall.
  - assert (Hstart : halved_as_counted (if r then reset self else self)).
    { destruct r; [apply reset_halved_as_counted | exact IH]. }
    pose proof (linked_Forall _ _ _ _ (distinct_history self stream n r p Hstart)) as Hall.
    unfold history in Hall. apply Forall_app in Hall as [Hall _].
    rewrite Forall_forall in Hall. apply Hall.
    apply list_elem_of_fmap. exists o. split; [reflexivity | exact Ho].
Qed.


(** **** The estimate *)

Lemma estimate_nonneg (self : DES) (v : Z) :
  halved_as_counted self -> estimate self = Ok v -> 0 <= v.
Proof.
  intros [_ Hp]. unfold estimate, floor_of_quotient, mbind, result_bind.
  destruct (float_of_int (len (acc_set self))) as [n|e] eqn:Hn; [|discriminate].
  apply float_of_int_sign in Hn; [|unfold len; lia].
  unfold truediv. destruct (f_eq _ _); [discriminate|].
  apply math_floor_sign, div_sign; [exact Hn|].
  rewrite Hp. apply halved_nonneg.
Qed.

Lemma while_loop_polled (thresh poll_rate : Z) (stream : list (option K)) :
  forall (i : Z) (self s : DES),
  polled s ∈ observed (while_loop thresh poll_rate stream i self) ->
  estimate s = Ok (distinct_item_count s).
Proof.
  induction stream as [|[item|] stream IH]; intros i self s; cbn [while_loop observed].
  - intros Ho. inversion Ho.
  - destruct (update thresh item self) as [[[]|e] self1]; cbn [observed seen].
    2:{ intros Ho. inversion Ho. }
    intros Ho. apply elem_of_cons in Ho as [[=]|Ho].
    destruct (poll_rate =? 0); [inversion Ho|].
    destruct (i mod poll_rate =? 0).
    + destruct (estimate self1) as [v|e] eqn:He; [|inversion Ho].
      cbn [observed seen] in Ho.
      apply elem_of_cons in Ho as [[= ->]|Ho]; [exact He|].
      exact (IH _ _ _ Ho).
    + exact (IH _ _ _ Ho).
  - intros Ho. inversion Ho.
Qed.

Lemma estimate_exact (self : DES) (v : Z) :
  halved_as_counted self ->
  len (acc_set self) < 2 ^ 53 ->
  _threshold_hit_count self <= Z.of_nat min_exponent ->
  estimate self = Ok v ->
  v = len (acc_set self) * 2 ^ _threshold_hit_count self.
Proof.
  intros [Hk0 Hp] Hn Hk. unfold estimate. rewrite Hp.
  rewrite floor_of_quotient_exact by (unfold len in *; lia).
  rewrite Z2Nat.id by exact Hk0.
  destruct (_ <? _); [|discriminate]. now intros [= <-].
Qed.

(** C4.  Every recomputation of a call, at a poll or at the end, stores
    [floor(len(acc_set) / cur_probability)], evaluated in binary64, in
    [distinct_item_count]; a call that returns gives back the value of the
    last recomputation, made on the instance it leaves, whatever the poll
    rate and the length of the stream; and these values are not negative.
    With fewer than [2^53] elements and at most 1074 down-sample events
    nothing is rounded: the probability being [2^-k], the value is the
    size times [2^k]. *)
Theorem estimate_is_floor_of_size_over_probability
  (self : DES) (stream : list (option K)) (stream_size : Z) (reset_state : bool)
  (poll_rate : Z) :
  reachable self ->
  let o := distinct self stream stream_size reset_state poll_rate in
  let exact (s : DES) :=
    len (acc_set s) < 2 ^ 53 ->
    _threshold_hit_count s <= Z.of_nat min_exponent ->
    cur_probability s = dyadic 1 (- _threshold_hit_count s) /\
    distinct_item_count s = len (acc_set s) * 2 ^ _threshold_hit_count s in
  (forall s : DES,
     polled s ∈ observed o ->
     estimate s = Ok (distinct_item_count s) /\ 0 <= distinct_item_count s /\ exact s) /\
  (forall v : Z,
     value o = Ok v ->
     estimate (instance o) = Ok v /\ distinct_item_count (instance o) = v /\ 0 <= v /\
     exact (instance o)).
Proof.
  intros Hr. cbv zeta.
  assert (Hexact : forall s : DES, halved_as_counted s ->
            estimate s = Ok (distinct_item_count s) ->
            len (acc_set s) < 2 ^ 53 ->
            _threshold_hit_count s <= Z.of_nat min_exponent ->
            cur_probability s = dyadic 1 (- _threshold_hit_count s) /\
            distinct_item_count s = len (acc_set s) * 2 ^ _threshold_hit_count s).
  { intros s Hinv He Hn Hk. split; [|now apply estimate_exact].
    destruct Hinv as [Hk0 ->]. rewrite halved_dyadic by lia. now rewrite Z2Nat.id. }
  split.
  - intros s Hs.
    assert (He : estimate s = Ok (distinct_item_count s)).
    { revert Hs. unfold distinct.
      destruct (get_threshold _ _) as [thresh|e]; [|intros Ho; inversion Ho].
      destruct (thresh <=? 0); [intros Ho; inversion Ho|].
      intros Ho. apply (while_loop_polled thresh poll_rate stream 0
                          (if reset_state then reset self else self)).
      destruct (value (while_loop _ _ _ _ _)); [destruct (estimate _)|]; exact Ho. }
    assert (Hinv : halved_as_counted s).
    { apply reachable_halved_as_counted.
      exact (reachable_observed self stream stream_size reset_state poll_rate _ Hr Hs). }
    split; [exact He|]. split; [exact (estimate_nonneg s _ Hinv He)|].
    now apply Hexact.
  - intros v Hv.
    pose proof (reachable_halved_as_counted _
                  (reachable_distinct self stream stream_size reset_state poll_rate Hr))
      as Hinv.
    assert (He : estimate (instance (distinct self stream stream_size reset_state poll_rate))
                 = Ok v /\
                 distinct_item_count
                   (instance (distinct self stream stream_size reset_state poll_rate)) = v).
    { revert Hv. unfold distinct.
      destruct (get_threshold _ _) as [thresh|e]; [|discriminate].
      destruct (thresh <=? 0); [discriminate|].
      destruct (value (while_loop _ _ _ _ _)) as [[]|e]; [|discriminate].
      destruct (estimate (instance _)) as [w|e] eqn:He; [|discriminate].
      cbn [value instance]. intros [= ->]. split; [exact He | reflexivity]. }
    destruct He as [He Hc].
    split; [exact He|]. split; [exact Hc|].
    split; [exact (estimate_nonneg _ _ Hinv He)|].
    apply Hexact; [exact Hinv | now rewrite Hc].
Qed.

(** **** Replaying a run *)

Lemma reset_is_init (self : DES) :
  reset self =
    __init__ (_threshold self) (relative_error_tolerance self)
      (failure_probability self) (seed self).
Proof. reflexivity. Qed.

Lemma update_configuration (thresh : Z) (item : K) (self : DES) :
  configuration (snd (update thresh item self)) = configuration self.
Proof.
  rewrite update_leaves.
  unfold per_item_update, remove_if_present, insert_with_retention_probability,
    down_sample_event. cbv zeta.
  destruct (decide (item ∈ acc_set self)).
  all: cbn [rand set_acc_set].
  all: destruct (random (rand self)) as [x g].
  all: cbn [cur_probability set_rand set_acc_set].
  all: destruct (f_lt x (cur_probability self)).
  all: match goal with |- context [?t <=? len ?s] => destruct (t <=? len s) end.
  all: try reflexivity.
  all: match goal with |- context [sample ?n ?g] => destruct (sample n g) as [xs g'] end.
  all: reflexivity.
Qed.

Lemma while_loop_configuration (thresh poll_rate : Z) (stream : list (option K)) :
  forall (i : Z) (self : DES),
  configuration (instance (while_loop thresh poll_rate stream i self)) =
    configuration self.
Proof.
  induction stream as [|[item|] stream IH]; intros i self; cbn [while_loop instance];
    try reflexivity.
  pose proof (update_configuration thresh item self) as Hc.
  destruct (update thresh item self) as [[[]|e] self1]; cbn [snd] in Hc;
    cbn [instance seen]; [|exact Hc].
  destruct (poll_rate =? 0); [exact Hc|].
  destruct (i mod poll_rate =? 0).
  - destruct (estimate self1) as [v|e]; [|exact Hc].
    cbn [instance seen]. rewrite IH. exact Hc.
  - rewrite IH. exact Hc.
Qed.

Lemma distinct_configuration (self : DES) (stream : list (option K)) (stream_size : Z)
  (reset_state : bool) (poll_rate : Z) :
  configuration (instance (distinct self stream stream_size reset_state poll_rate)) =
    configuration self.
Proof.
  unfold distinct.
  assert (Hs : configuration (if reset_state then reset self else self) =
               configuration self) by (destruct reset_state; reflexivity).
  destruct (get_threshold _ _) as [thresh|e]; [|exact Hs].
  destruct (thresh <=? 0); [exact Hs|].
  pose proof (while_loop_configuration thresh poll_rate stream 0
                (if reset_state then reset self else self)) as Hl.
  destruct (value (while_loop _ _ _ _ _)) as [[]|e]; cbn [instance];
    [|now rewrite Hl].
  destruct (estimate _) as [v|e]; cbn [instance]; [|now rewrite Hl].
  change (configuration (set_distinct_item_count v ?s)) with (configuration s).
  now rewrite Hl.
Qed.

(** C8.  Take an instance made with a given configuration and seed, and
    use it for any first call.  A run on a new instance with the same
    configuration and seed, a run on the used instance with [reset_state]
    set, and a run on the used instance after [reset()] are the same run:
    the same value or exception, the same observations (so the same
    estimates at the polls), the same instance at the end (so the same
    event counter), and the same items left unread. *)
Theorem same_seed_same_run
  (threshold : _threshold_type) (e d : float) (s : Z)
  (stream1 : list (option K)) (stream_size1 : Z) (reset_state1 : bool) (poll_rate1 : Z)
  (stream : list (option K)) (stream_size poll_rate : Z) :
  let new := __init__ threshold e d s in
  let used := instance (distinct new stream1 stream_size1 reset_state1 poll_rate1) in
  let run_new := distinct new stream stream_size false poll_rate in
  let run_reset_state := distinct used stream stream_size true poll_rate in
  let run_after_reset := distinct (reset used) stream stream_size false poll_rate in
  reset used = new /\
  run_reset_state = run_new /\
  run_after_reset = run_new /\
  intermediate_estimates run_reset_state = intermediate_estimates run_new /\
  intermediate_estimates run_after_reset = intermediate_estimates run_new /\
  get_threshold_hit_count (instance run_reset_state) =
    get_threshold_hit_count (instance run_new) /\
  get_threshold_hit_count (instance run_after_reset) =
    get_threshold_hit_count (instance run_new) /\
  value run_reset_state = value run_new /\
  value run_after_reset = value run_new.
Proof.
  cbv zeta.
  set (new := __init__ threshold e d s).
  set (used := instance (distinct new stream1 stream_size1 reset_state1 poll_rate1)).
  assert (Hreset : reset used = new).
  { rewrite reset_is_init.
    pose proof (distinct_configuration new stream1 stream_size1 reset_state1 poll_rate1)
      as Hc.
    fold used in Hc. unfold configuration in Hc. injection Hc as -> -> -> ->.
    reflexivity. }
  assert (H1 : distinct used stream stream_size true poll_rate =
               distinct new stream stream_size false poll_rate).
  { unfold distinct at 1. rewrite Hreset. reflexivity. }
  rewrite Hreset, H1. repeat split; reflexivity.
Qed.

(** **** The items of the stream *)

Lemma same_sample_refl (a : DES) : same_sample a a.
Proof. reflexivity. Qed.

Lemma same_sample_set (v : Z) (a : DES) : same_sample (set_distinct_item_count v a) a.
Proof. reflexivity. Qed.

Lemma same_sample_trans (a b c : DES) :
  same_sample a b -> same_sample b c -> same_sample a c.
Proof. unfold same_sample. congruence. Qed.

Lemma remove_if_present_set_count (item : K) (v : Z) (self : DES) :
  remove_if_present item (set_distinct_item_count v self) =
    set_distinct_item_count v (remove_if_present item self).
Proof.
  unfold remove_if_present. cbn [acc_set set_distinct_item_count].
  destruct (decide (item ∈ acc_set self)); reflexivity.
Qed.

Lemma insert_set_count (item : K) (v : Z) (self : DES) :
  insert_with_retention_probability item (set_distinct_item_count v self) =
    set_distinct_item_count v (insert_with_retention_probability item self).
Proof.
  unfold insert_with_retention_probability. cbn [rand set_distinct_item_count].
  destruct (random (rand self)) as [x g].
  cbn [cur_probability set_rand set_distinct_item_count].
  destruct (f_lt x (cur_probability self)); reflexivity.
Qed.

Lemma down_sample_event_set_count (v : Z) (self : DES) :
  down_sample_event (set_distinct_item_count v self) =
    set_distinct_item_count v (down_sample_event self).
Proof.
  unfold down_sample_event. cbn [rand acc_set set_distinct_item_count].
  destruct (sample _ _) as [xs g]. reflexivity.
Qed.

Lemma update_set_distinct_item_count (thresh : Z) (item : K) (v : Z) (self : DES) :
  update thresh item (set_distinct_item_count v self) =
    (fst (update thresh item self),
     set_distinct_item_count v (snd (update thresh item self))).
Proof.
  rewrite !update_unfold. cbv zeta.
  rewrite remove_if_present_set_count, insert_set_count, down_sample_event_set_count.
  rewrite !acc_set_set_distinct_item_count.
  destruct (thresh <=? len (acc_set _)); [|reflexivity].
  destruct (thresh <=? len (acc_set _)); reflexivity.
Qed.

Lemma update_same_sample (thresh : Z) (item : K) (a b : DES) :
  same_sample a b ->
  same_sample (snd (update thresh item a)) (snd (update thresh item b)).
Proof.
  unfold same_sample. intros Hab.
  assert (Ha : a = set_distinct_item_count (distinct_item_count a)
                     (set_distinct_item_count 0 a)) by (destruct a; reflexivity).
  assert (Hb : b = set_distinct_item_count (distinct_item_count b)
                     (set_distinct_item_count 0 b)) by (destruct b; reflexivity).
  rewrite Ha, Hb, Hab, !update_set_distinct_item_count. reflexivity.
Qed.

Lemma process_same_sample (thresh : Z) (items : list K) :
  forall a b, same_sample a b ->
  same_sample (process thresh items a) (process thresh items b).
Proof.
  induction items as [|item items IH]; intros a b Hab; [exact Hab|].
  cbn [process foldl]. apply IH, update_same_sample, Hab.
Qed.

Lemma while_loop_consumes (thresh poll_rate : Z) (items : list K) :
  forall (i : Z) (self : DES),
  let o := while_loop thresh poll_rate (Some <$> items) i self in
  exists consumed rest : list K,
    items = consumed ++ rest /\
    unread o = Some <$> rest /\
    same_sample (instance o) (process thresh consumed self) /\
    (forall u, value o = Ok u -> rest = []).
Proof.
  cbv zeta. induction items as [|item items IH]; intros i self;
    cbn [fmap list_fmap while_loop].
  - exists [], []. cbn [value instance unread]. repeat split.
  - assert (Hstop : forall e : exn,
              exists consumed rest : list K,
                item :: items = consumed ++ rest /\
                Some <$> items = Some <$> rest /\
                same_sample (snd (update thresh item self)) (process thresh consumed self) /\
                (forall u : unit, @Raise unit e = Ok u -> rest = [])).
    { intros e. exists [item], items. repeat split. discriminate. }
    assert (Hrec : forall i' s',
              same_sample s' (snd (update thresh item self)) ->
              exists consumed rest : list K,
                item :: items = consumed ++ rest /\
                unread (while_loop thresh poll_rate (Some <$> items) i' s') = Some <$> rest /\
                same_sample (instance (while_loop thresh poll_rate (Some <$> items) i' s'))
                  (process thresh consumed self) /\
                (forall u, value (while_loop thresh poll_rate (Some <$> items) i' s') = Ok u ->
                           rest = [])).
    { intros i' s' Hs'. destruct (IH i' s') as (consumed & rest & Hi & Hu & Hp & Hv).
      exists (item :: consumed), rest. split; [cbn [app]; now f_equal|].
      split; [exact Hu|]. split; [|exact Hv].
      apply (same_sample_trans _ _ _ Hp). cbn [process foldl].
      apply process_same_sample, Hs'. }
    destruct (update thresh item self) as [[[]|e] self1]; cbn [snd] in *;
      cbn [value instance unread seen]; [|apply Hstop].
    destruct (poll_rate =? 0); [apply (Hstop ZeroDivisionError)|].
    destruct (i mod poll_rate =? 0).
    + destruct (estimate self1) as [v|e]; [|apply (Hstop e)].
      cbn [value instance unread seen]. apply Hrec, same_sample_set.
    + apply Hrec, same_sample_refl.
Qed.

(** C9, as the code has it.  For a stream of items none of which is
    [None], and a threshold that resolves to a positive value, a call
    applies the block to the items one after the other, each once and in
    the order of the stream: what it leaves is the instance obtained by
    processing a prefix of the stream, up to the published estimate, and
    the items after that prefix are left unread.  A call that returns has
    read the whole stream.  The declared size matters only through the
    threshold it resolves to. *)
Theorem items_consumed_once_in_order
  (self : DES) (items : list K) (stream_size stream_size' : Z) (reset_state : bool)
  (poll_rate thresh : Z) :
  let start := if reset_state then reset self else self in
  let o := distinct self (Some <$> items) stream_size reset_state poll_rate in
  get_threshold start stream_size = Ok thresh ->
  0 < thresh ->
  (exists consumed rest : list K,
     items = consumed ++ rest /\
     unread o = Some <$> rest /\
     same_sample (instance o) (process thresh consumed start) /\
     (forall v, value o = Ok v -> rest = [])) /\
  (get_threshold start stream_size' = Ok thresh ->
   distinct self (Some <$> items) stream_size' reset_state poll_rate = o).
Proof.
  cbv zeta. intros Ht Hpos.
  assert (Hle : (thresh <=? 0) = false) by (apply Z.leb_gt; lia).
  split.
  - unfold distinct. rewrite Ht, Hle.
    destruct (while_loop_consumes thresh poll_rate items 0
                (if reset_state then reset self else self))
      as (consumed & rest & Hi & Hu & Hp & Hv).
    exists consumed, rest. split; [exact Hi|].
    destruct (value (while_loop _ _ _ _ _)) as [[]|e] eqn:Hval.
    + destruct (estimate _) as [v|e]; cbn [value instance unread].
      * split; [exact Hu|]. split; [|intros; now apply (Hv tt)].
        apply (same_sample_trans _ _ _ (same_sample_set _ _)), Hp.
      * split; [exact Hu|]. split; [exact Hp|]. discriminate.
    + cbn [value instance unread]. split; [exact Hu|]. split; [exact Hp|]. discriminate.
  - intros Ht'. unfold distinct. rewrite Ht, Ht'. reflexivity.
Qed.

(** **** Invalid parameters *)

(** C6, as the code has it.  [calculate_threshold] raises [ValueError]
    from its three checks exactly when one of the floats is at most 0 or at
    least 1 or the stream size is at most 0 (for floats that are not NaN:
    when one of them is outside (0, 1)), and otherwise goes on to its
    [return] expression; it has no instance to change.  [distinct] raises
    [AssertionError] when the threshold resolves to a value that is not
    positive, and passes on what the threshold function raises.  In both
    cases no item has been read and nothing has been observed; the
    instance is the one the call was given when [reset_state] is not set,
    and that instance reset when it is. *)
Theorem invalid_parameter_before_any_item
  (libm_pow : float -> float -> float) (libm_log : float -> float)
  (n : Z) (e d : float)
  (self : DES) (stream : list (option K)) (stream_size : Z) (reset_state : bool)
  (poll_rate : Z) :
  let start := if reset_state then reset self else self in
  let o := distinct self stream stream_size reset_state poll_rate in
  (is_nan e = false -> is_nan d = false ->
   (invalid_arguments n e d = true <->
    in_unit_interval e = false \/ in_unit_interval d = false \/ n <= 0)) /\
  (invalid_arguments n e d = true ->
   calculate_threshold libm_pow libm_log n e d = Raise ValueError) /\
  (invalid_arguments n e d = false ->
   calculate_threshold libm_pow libm_log n e d =
     threshold_expression libm_pow libm_log n e d) /\
  (forall thresh : Z,
     get_threshold start stream_size = Ok thresh -> thresh <= 0 ->
     o = {| value := Raise AssertionError; instance := start; unread := stream;
            observed := [] |}) /\
  (forall err : exn,
     get_threshold start stream_size = Raise err ->
     o = {| value := Raise err; instance := start; unread := stream;
            observed := [] |}).
Proof.
  cbv zeta. repeat split.
  - unfold invalid_arguments.
    rewrite !outside_unit_interval by assumption.
    intros Hi. apply orb_prop in Hi as [Hi|Hi];
      [apply orb_prop in Hi as [Hi|Hi]|].
    + left. now apply negb_true_iff.
    + right. left. now apply negb_true_iff.
    + right. right. now apply Z.leb_le.
  - unfold invalid_arguments.
    rewrite !outside_unit_interval by assumption.
    intros [Hi|[Hi|Hi]].
    + rewrite Hi. reflexivity.
    + rewrite Hi. apply orb_true_iff. left. apply orb_true_r.
    + apply Z.leb_le in Hi. rewrite Hi. apply orb_true_r.
  - intros Hi. now rewrite calculate_threshold_checks, Hi.
  - intros Hi. now rewrite calculate_threshold_checks, Hi.
  - intros thresh Ht Hle. unfold distinct. rewrite Ht.
    apply Z.leb_le in Hle. now rewrite Hle.
  - intros err Ht. unfold distinct. now rewrite Ht.
Qed.

End Properties.

(** ** Runs *)

Example seed_0_draws :
  fst (sample 2 (MT19937.seed_state 0)) =
    [S754_finite false 7605875871743422 (-53); S754_finite false 6827046333291546 (-53)].
Proof. vm_compute. reflexivity. Qed.

Example seed_42_draws :
  fst (sample 2 (MT19937.seed_state 42)) =
    [S754_finite false 5759444582531269 (-53); S754_finite false 7208859385667680 (-58)].
Proof. vm_compute. reflexivity. Qed.

Example calculate_threshold_1_half_half :
  calculate_threshold pow_at_half log_at_16 1 f_half f_half = Ok 134.
Proof. vm_compute. reflexivity. Qed.

(** [calculate_threshold(1, 2**-600, 0.5)]: the tolerance is in (0, 1),
    its square underflows, and [12.0 / 0.0] raises. *)
Example calculate_threshold_tiny_tolerance :
  in_unit_interval (dyadic 1 (-600)) = true /\
  calculate_threshold pow_at_tiny log_at_16 1 (dyadic 1 (-600)) f_half =
    Raise ZeroDivisionError.
Proof. split; vm_compute; reflexivity. Qed.

Example float_of_int_largest :
  float_of_int (2 ^ 1024 - 2 ^ 970 - 1) =
    Ok (S754_finite false 9007199254740991 971) /\
  float_of_int (2 ^ 1024 - 2 ^ 970) =
    Raise (OverflowError int_too_large_to_convert_to_float).
Proof. split; vm_compute; reflexivity. Qed.

Example des_100_42_run :
  let o := distinct des_100_42 fourteen 14 false 10 in
  value o = Ok 12 /\
  cur_probability (instance o) = f_one /\
  get_threshold_hit_count (instance o) = 0 /\
  intermediate_estimates o = [1; 9] /\
  unread o = [].
Proof. vm_compute. repeat split; reflexivity. Qed.

Example des_1_42_run :
  let o := distinct des_1_42 (Some <$> [1; 2; 3; 4; 5]) 5 false 10 in
  value o = Ok 0 /\
  elements (acc_set (instance o)) = [] /\
  cur_probability (instance o) = dyadic 1 (-2) /\
  get_threshold_hit_count (instance o) = 2 /\
  unread o = [].
Proof. vm_compute. repeat split; reflexivity. Qed.

Example des_1_0_run :
  let o := distinct des_1_0 [Some 1; Some 2] 2 false 10 in
  value o = Raise (OverflowError (could_not_down_sample 1 1)) /\
  elements (acc_set (instance o)) = [1] /\
  cur_probability (instance o) = f_half /\
  get_threshold_hit_count (instance o) = 1 /\
  unread o = [Some 2].
Proof. vm_compute. repeat split; reflexivity. Qed.

(** An element [None] ends the loop like the end of the stream: the call
    returns and the items after it are not read. *)
Example none_ends_the_loop :
  let o := distinct des_100_42 [Some 1; None; Some 2] 3 false 10 in
  value o = Ok 1 /\ elements (acc_set (instance o)) = [1] /\ unread o = [Some 2].
Proof. vm_compute. repeat split; reflexivity. Qed.

(** ** The theorems at these runs *)

(** C2 at the first item of [DES(threshold=1, seed=42)] on five items. *)
Lemma accumulator_below_threshold_witness :
  let o := updated (snd (update 1 1 des_1_42)) in
  get_threshold des_1_42 5 = Ok 1 /\
  0 < 1 /\
  o ∈ observed (distinct des_1_42 five 5 false 10) /\
  len (acc_set (state_of o)) < 1.
Proof.
  cbv zeta.
  assert (Ht : get_threshold des_1_42 5 = Ok 1) by reflexivity.
  assert (Hpos : 0 < 1) by lia.
  assert (Ho : updated (snd (update 1 1 des_1_42)) ∈
               observed (distinct des_1_42 five 5 false 10)).
  { vm_compute. apply list_elem_of_here. }
  split; [exact Ht|]. split; [exact Hpos|]. split; [exact Ho|].
  exact (accumulator_below_threshold des_1_42 five 5 false 10 1 _ Ht Hpos Ho).
Defined.



(** C4 at [DES(threshold=100, seed=42)] on the fourteen items. *)
Lemma estimate_is_floor_of_size_over_probability_witness :
  let o := distinct des_100_42 fourteen 14 false 10 in
  let exact (s : DES) :=
    len (acc_set s) < 2 ^ 53 ->
    _threshold_hit_count s <= Z.of_nat min_exponent ->
    cur_probability s = dyadic 1 (- _threshold_hit_count s) /\
    distinct_item_count s = len (acc_set s) * 2 ^ _threshold_hit_count s in
  reachable des_100_42 /\
  (forall s : DES,
     polled s ∈ observed o ->
     estimate s = Ok (distinct_item_count s) /\ 0 <= distinct_item_count s /\ exact s) /\
  (forall v : Z,
     value o = Ok v ->
     estimate (instance o) = Ok v /\ distinct_item_count (instance o) = v /\ 0 <= v /\
     exact (instance o)).
Proof.
  cbv zeta.
  assert (Hr : reachable des_100_42) by apply reachable_init.
  split; [exact Hr|].
  exact (estimate_is_floor_of_size_over_probability des_100_42 fourteen 14 false 10 Hr).
Defined.


(** Against C6 as the specification words it:
    [DES(threshold=lambda n, e, d: n, seed=42)] holds the item after
    [distinct([1], 5)]; [distinct([2], 0, reset_state=True)] then raises
    [AssertionError], and the accumulator is empty. *)
Lemma assertion_error_after_reset :
  let o := distinct used_size_42 [Some 2] 0 true 10 in
  elements (acc_set used_size_42) = [1] /\
  value o = Raise AssertionError /\
  elements (acc_set (instance o)) = [] /\
  instance o <> used_size_42.
Proof.
  cbv zeta.
  assert (H1 : elements (acc_set used_size_42) = [1]) by (vm_compute; reflexivity).
  assert (H2 : elements (acc_set (instance (distinct used_size_42 [Some 2] 0 true 10))) = [])
    by (vm_compute; reflexivity).
  split; [exact H1|]. split; [vm_compute; reflexivity|]. split; [exact H2|].
  intros Heq.
  pose proof (eq_trans (eq_sym H2)
                (eq_trans (f_equal (fun s => elements (acc_set s)) Heq) H1)) as Hne.
  discriminate Hne.
Qed.

(** C6 at the call [distinct([2], 0)] on that instance, with and without
    [reset_state], and at [calculate_threshold(0, 0.5, 0.5)]. *)
Lemma invalid_parameter_before_any_item_witness :
  distinct used_size_42 [Some 2] 0 true 10 =
    {| value := Raise AssertionError; instance := reset used_size_42;
       unread := [Some 2]; observed := [] |} /\
  distinct used_size_42 [Some 2] 0 false 10 =
    {| value := Raise AssertionError; instance := used_size_42;
       unread := [Some 2]; observed := [] |} /\
  calculate_threshold pow_at_half log_at_16 0 f_half f_half = Raise ValueError.
Proof.
  destruct (invalid_parameter_before_any_item pow_at_half log_at_16 0 f_half f_half
              used_size_42 [Some 2] 0 true 10) as (_ & Hc & _ & Ha & _).
  destruct (invalid_parameter_before_any_item pow_at_half log_at_16 0 f_half f_half
              used_size_42 [Some 2] 0 false 10) as (_ & _ & _ & Hb & _).
  assert (Ht : get_threshold (reset used_size_42) 0 = Ok 0) by (vm_compute; reflexivity).
  assert (Ht' : get_threshold used_size_42 0 = Ok 0) by (vm_compute; reflexivity).
  split; [exact (Ha 0 Ht ltac:(lia))|].
  split; [exact (Hb 0 Ht' ltac:(lia))|].
  apply Hc. reflexivity.
Defined.



(** C9 at [DES(threshold=1, seed=42)] on five items. *)
Lemma items_consumed_once_in_order_witness :
  let o := distinct des_1_42 five 5 false 10 in
  get_threshold des_1_42 5 = Ok 1 /\
  0 < 1 /\
  (exists consumed rest : list Z,
     [1; 2; 3; 4; 5] = consumed ++ rest /\
     unread o = Some <$> rest /\
     same_sample (instance o) (process 1 consumed des_1_42) /\
     (forall v, value o = Ok v -> rest = [])) /\
  (get_threshold des_1_42 7 = Ok 1 -> distinct des_1_42 five 7 false 10 = o).
Proof.
  cbv zeta.
  assert (Ht : get_threshold des_1_42 5 = Ok 1) by reflexivity.
  assert (Hpos : 0 < 1) by lia.
  split; [exact Ht|]. split; [exact Hpos|].
  exact (items_consumed_once_in_order des_1_42 [1; 2; 3; 4; 5] 5 7 false 10 1 Ht Hpos).
Defined.

(** Against C9 as the specification words it:
    [DES(threshold=1, seed=0).distinct([1, 2], 2)] has a positive
    threshold and no item that is [None], yet the block of the first item
    raises and the second item is never read. *)
Lemma overflow_leaves_items_unread :
  let o := distinct des_1_0 [Some 1; Some 2] 2 false 10 in
  get_threshold des_1_0 2 = Ok 1 /\
  value o = Raise (OverflowError (could_not_down_sample 1 1)) /\
  unread o = [Some 2] /\
  observed o = [].
Proof. vm_compute. repeat split; reflexivity. Qed.

(** * Further properties

    Properties of the same code beyond those above: what the accumulator
    and the counter can hold, when the estimate is exact, when and how a
    call raises, and how calls compose. *)

(** ** The draws of [random.Random]

    A draw of [MT19937] is [m / 2^53] for an integer [0 <= m < 2^53]: a
    float in [0.0, 1.0). *)

Lemma digits2_pos_le_53 (p : positive) : Z.pos p < 2 ^ 53 -> Z.pos (digits2_pos p) <= 53.
Proof.
  intros Hlt. pose proof (digits2_pos_bounds p) as [Hlo _].
  destruct (Z.le_gt_cases (Z.pos (digits2_pos p)) 53) as [|Hgt]; [assumption|].
  assert (2 ^ 53 <= 2 ^ (Z.pos (digits2_pos p) - 1)) by (apply Z.pow_le_mono_r; lia).
  lia.
Qed.

Lemma dyadic_fraction (m : Z) :
  0 <= m < 2 ^ 53 ->
  nonneg_finite (dyadic m (-53)) = true /\ f_lt (dyadic m (-53)) f_one = true.
Proof.
  intros [Hm0 Hm]. destruct m as [|p|p]; [split; reflexivity | | lia].
  pose proof (digits2_pos_le_53 p Hm) as Hd.
  unfold dyadic, binary_normalize, binary_round, shl_align.
  assert (Hf : fexp prec emax (Z.pos (digits2_pos p) + -53) - -53 = Z.pos (digits2_pos p) - 53).
  { unfold fexp, emin, prec, emax. lia. }
  rewrite Hf.
  destruct (Z.pos (digits2_pos p) - 53) as [|q|q] eqn:Hq; try lia.
  - rewrite round_canonical by lia. split; reflexivity.
  - assert (Hfe : fexp prec emax (Z.pos (digits2_pos p) + -53) = Z.neg q - 53).
    { unfold fexp, emin, prec, emax. lia. }
    rewrite Hfe.
    rewrite round_canonical by (rewrite ?iter_xO_digits; lia).
    replace (Z.neg q - 53 <=? 971) with true by (symmetry; apply Z.leb_le; lia).
    split; [reflexivity|].
    unfold f_lt, SFltb, SFcompare, f_one.
    replace (Z.neg q - 53 ?= -52) with Lt by (symmetry; apply Z.compare_lt_iff; lia).
    reflexivity.
Qed.

Lemma genrand_uint32_range (s : MT19937.state) :
  0 <= fst (MT19937.genrand_uint32 s) < 2 ^ 32.
Proof.
  unfold MT19937.genrand_uint32. cbn [fst]. unfold MT19937.u32.
  apply Z.mod_pos_bound. reflexivity.
Qed.

Lemma genrand_res53_fraction (s : MT19937.state) :
  nonneg_finite (fst (MT19937.genrand_res53 s)) = true /\
  f_lt (fst (MT19937.genrand_res53 s)) f_one = true.
Proof.
  unfold MT19937.genrand_res53.
  pose proof (genrand_uint32_range s) as Hx.
  destruct (MT19937.genrand_uint32 s) as [x s1]. cbn [fst] in Hx.
  pose proof (genrand_uint32_range s1) as Hy.
  destruct (MT19937.genrand_uint32 s1) as [y s2]. cbn [fst] in *.
  apply dyadic_fraction.
  rewrite !Z.shiftr_div_pow2 by lia.
  change (2 ^ 5) with 32. change (2 ^ 6) with 64.
  assert (0 <= x / 32 < 2 ^ 27).
  { split; [apply Z.div_pos; lia|]. apply Z.div_lt_upper_bound; [lia|].
    change (32 * 2 ^ 27) with (2 ^ 32). lia. }
  assert (0 <= y / 64 < 2 ^ 26).
  { split; [apply Z.div_pos; lia|]. apply Z.div_lt_upper_bound; [lia|].
    change (64 * 2 ^ 26) with (2 ^ 32). lia. }
  change (2 ^ 53) with (2 ^ 27 * 67108864). change (2 ^ 26) with 67108864 in *. nia.
Qed.

Lemma MT19937_unit_draws : unit_draws MT19937.state.
Proof. intros g. apply genrand_res53_fraction. Qed.

(** ** Multiples of the poll rate *)

Lemma mod_abs_zero (j r : Z) : r <> 0 -> (j mod r =? 0) = (j mod Z.abs r =? 0).
Proof.
  intros Hr.
  assert (Hiff : j mod r = 0 <-> j mod Z.abs r = 0).
  { rewrite !Z.mod_divide by lia. symmetry. apply Z.divide_abs_l. }
  destruct (Z.eqb_spec (j mod r) 0) as [E|E], (Z.eqb_spec (j mod Z.abs r) 0) as [E'|E'];
    tauto.
Qed.

Lemma ceil_div_succ (a j : Z) :
  0 < a -> 0 <= j ->
  (j + 1 + a - 1) / a = (j + a - 1) / a + (if j mod a =? 0 then 1 else 0).
Proof.
  intros Ha Hj.
  pose proof (Z.div_mod j a ltac:(lia)) as Hdm.
  pose proof (Z.mod_pos_bound j a Ha) as Hb.
  destruct (Z.eqb_spec (j mod a) 0) as [E|E].
  - rewrite E in Hdm.
    replace ((j + 1 + a - 1) / a) with (j / a + 1)
      by (apply (Z.div_unique _ _ _ 0); lia).
    replace ((j + a - 1) / a) with (j / a)
      by (apply (Z.div_unique _ _ _ (a - 1)); lia).
    reflexivity.
  - replace ((j + 1 + a - 1) / a) with (j / a + 1)
      by (apply (Z.div_unique _ _ _ (j mod a)); lia).
    replace ((j + a - 1) / a) with (j / a + 1)
      by (apply (Z.div_unique _ _ _ (j mod a - 1)); lia).
    lia.
Qed.

Lemma polls_of_schedule (r : Z) (n : nat) :
  r <> 0 ->
  forall j : nat,
  Z.of_nat (length (List.filter id (flat_map (observations_of_item r) (seq j n)))) =
    (Z.of_nat (j + n) + Z.abs r - 1) / Z.abs r - (Z.of_nat j + Z.abs r - 1) / Z.abs r.
Proof.
  intros Hr. induction n as [|n IH]; intros j.
  - rewrite Nat.add_0_r. cbn. lia.
  - cbn [seq flat_map observations_of_item app List.filter id].
    replace (j + S n)%nat with (S j + n)%nat by lia.
    rewrite (mod_abs_zero _ r Hr).
    pose proof (ceil_div_succ (Z.abs r) (Z.of_nat j) ltac:(lia) ltac:(lia)) as Hs.
    replace (Z.of_nat (S j)) with (Z.of_nat j + 1) in IH |- * by lia.
    destruct (Z.of_nat j mod Z.abs r =? 0); cbn [app List.filter id length].
    + rewrite Nat2Z.inj_succ, (IH (S j)).
      replace (Z.of_nat (S j)) with (Z.of_nat j + 1) by lia. lia.
    + rewrite (IH (S j)).
      replace (Z.of_nat (S j)) with (Z.of_nat j + 1) by lia. lia.
Qed.

(** ** The class [DES], continued *)

Section FurtherProperties.
Context {K : Type} `{Countable K}.
Context {rng : Type} `{RandomSource rng}.
#[local] Abbreviation DES := (@DES K _ _ rng) (only parsing).
#[local] Abbreviation outcome := (@outcome K _ _ rng) (only parsing).
#[local] Abbreviation observation := (@observation K _ _ rng) (only parsing).

(** *** The accumulator and the counter along a call *)

(** What the first two steps leave. *)
Lemma insert_after_remove (item : K) (self : DES) :
  let b := insert_with_retention_probability item (remove_if_present item self) in
  acc_set b =
    (if f_lt (fst (random (rand self))) (cur_probability self)
     then {[item]} ∪ acc_set self else acc_set self ∖ {[item]}) /\
  cur_probability b = cur_probability self /\
  _threshold_hit_count b = _threshold_hit_count self /\
  rand b = snd (random (rand self)).
Proof.
  cbv zeta. unfold insert_with_retention_probability, remove_if_present.
  destruct (decide (item ∈ acc_set self)) as [Hin|Hout];
    cbn [rand set_acc_set]; destruct (random (rand self)) as [x g];
    cbn [fst snd cur_probability set_rand set_acc_set acc_set];
    destruct (f_lt x (cur_probability self));
    cbn [acc_set set_acc_set set_rand cur_probability _threshold_hit_count rand];
    (split; [|repeat split]); apply set_eq; intros y;
    rewrite ?elem_of_union, ?elem_of_difference, ?elem_of_singleton;
    destruct (decide (y = item)) as [->|]; tauto.
Qed.

Lemma down_sample_event_subseteq (self : DES) :
  acc_set (down_sample_event self) ⊆ acc_set self.
Proof.
  unfold down_sample_event.
  destruct (sample _ _) as [xs g]. cbn [acc_set set_threshold_hit_count set_cur_probability
    set_acc_set set_rand].
  intros x Hx. apply elem_of_list_to_set, elem_of_retain in Hx as (i & d & Hi & _).
  apply elem_of_elements. eapply list_elem_of_lookup_2. exact Hi.
Qed.

Lemma update_subseteq (thresh : Z) (item : K) (self : DES) :
  acc_set (snd (update thresh item self)) ⊆ {[item]} ∪ acc_set self.
Proof.
  rewrite update_leaves. unfold per_item_update. cbv zeta.
  destruct (insert_after_remove item self) as (Hb & _).
  assert (Hsub : acc_set (insert_with_retention_probability item (remove_if_present item self))
                 ⊆ {[item]} ∪ acc_set self).
  { rewrite Hb. destruct (f_lt _ _); [reflexivity|].
    intros y Hy. apply elem_of_difference in Hy as [Hy _]. apply elem_of_union. now right. }
  destruct (thresh <=? len _); [|exact Hsub].
  etrans; [apply down_sample_event_subseteq | exact Hsub].
Qed.

(** A property of the instance that the block of every item of the
    stream and every poll keep holds along the loop. *)
Lemma while_loop_invariant (P : DES -> Prop) (thresh poll_rate : Z)
  (stream0 : list (option K)) :
  (forall item s, Some item ∈ stream0 -> P s -> P (snd (update thresh item s))) ->
  (forall v s, P s -> P (set_distinct_item_count v s)) ->
  forall (stream : list (option K)) (i : Z) (self : DES),
  stream ⊆ stream0 -> P self ->
  P (instance (while_loop thresh poll_rate stream i self)) /\
  forall o, o ∈ observed (while_loop thresh poll_rate stream i self) -> P (state_of o).
Proof.
  intros Hstep Hpoll.
  induction stream as [|[item|] stream IH]; intros i self Hsub HP;
    cbn [while_loop instance observed].
  - split; [exact HP | intros o Ho; inversion Ho].
  - assert (Hitem : Some item ∈ stream0) by (apply Hsub; left).
    assert (Hrest : stream ⊆ stream0) by (intros x Hx; apply Hsub; now right).
    pose proof (Hstep item self Hitem HP) as HP1.
    destruct (update thresh item self) as [[[]|e] self1]; cbn [snd] in HP1;
      cbn [instance observed seen].
    2:{ split; [exact HP1 | intros o Ho; inversion Ho]. }
    destruct (poll_rate =? 0).
    { cbn [instance observed]. split; [exact HP1|].
      intros o Ho. apply elem_of_cons in Ho as [->|Ho]; [exact HP1 | inversion Ho]. }
    destruct (i mod poll_rate =? 0).
    + destruct (estimate self1) as [v|e]; cbn [instance observed seen].
      * destruct (IH 1 (set_distinct_item_count v self1) Hrest (Hpoll v _ HP1)) as [Hi Ho].
        split; [exact Hi|].
        intros o Hin. apply elem_of_cons in Hin as [->|Hin]; [exact HP1|].
        apply elem_of_cons in Hin as [->|Hin]; [exact (Hpoll v _ HP1)|].
        exact (Ho o Hin).
      * split; [exact HP1|].
        intros o Ho. apply elem_of_cons in Ho as [->|Ho]; [exact HP1 | inversion Ho].
    + destruct (IH (i + 1) self1 Hrest HP1) as [Hi Ho].
      split; [exact Hi|].
      intros o Hin. apply elem_of_cons in Hin as [->|Hin]; [exact HP1|].
      exact (Ho o Hin).
  - split; [exact HP | intros o Ho; inversion Ho].
Qed.

(** The same along a call. *)
Lemma distinct_invariant (P : DES -> Prop) (self : DES) (stream : list (option K))
  (stream_size : Z) (reset_state : bool) (poll_rate : Z) :
  let start := if reset_state then reset self else self in
  let o := distinct self stream stream_size reset_state poll_rate in
  (forall thresh item s, Some item ∈ stream -> P s -> P (snd (update thresh item s))) ->
  (forall v s, P s -> P (set_distinct_item_count v s)) ->
  P start ->
  P (instance o) /\ forall ob, ob ∈ observed o -> P (state_of ob).
Proof.
  cbv zeta. intros Hstep Hpoll HP. unfold distinct.
  set (start := if reset_state then reset self else self) in *.
  assert (Hstay : P start /\ forall ob : observation, ob ∈ [] -> P (state_of ob)).
  { split; [exact HP | intros ob Ho; inversion Ho]. }
  destruct (get_threshold start stream_size) as [thresh|e]; [|exact Hstay].
  destruct (thresh <=? 0); [exact Hstay|].
  destruct (while_loop_invariant P thresh poll_rate stream (Hstep thresh) Hpoll
              stream 0 start (fun x Hx => Hx) HP) as [Hi Ho].
  destruct (value (while_loop thresh poll_rate stream 0 start)) as [[]|e];
    cbn [instance observed]; [|split; assumption].
  destruct (estimate _) as [v|e]; cbn [instance observed]; split; auto.
Qed.

(** X1.  The accumulator only ever holds items of the stream: at every
    observation of a call and at its end, an element of the accumulator
    was in the accumulator when the call started or is an item of the
    stream. *)
Theorem accumulator_holds_only_stream_items
  (self : DES) (stream : list (option K)) (stream_size : Z) (reset_state : bool)
  (poll_rate : Z) :
  let start := if reset_state then reset self else self in
  let o := distinct self stream stream_size reset_state poll_rate in
  (forall x : K, x ∈ acc_set (instance o) -> x ∈ acc_set start \/ Some x ∈ stream) /\
  (forall (ob : observation) (x : K),
     ob ∈ observed o -> x ∈ acc_set (state_of ob) ->
     x ∈ acc_set start \/ Some x ∈ stream) /\
  (reset_state = true -> forall x : K, x ∈ acc_set (instance o) -> Some x ∈ stream).
Proof.
  cbv zeta.
  set (start := if reset_state then reset self else self).
  pose (P := fun s : DES =>
              forall x : K, x ∈ acc_set s -> x ∈ acc_set start \/ Some x ∈ stream).
  destruct (distinct_invariant P self stream stream_size reset_state poll_rate) as [Hi Ho].
  - intros thresh item s Hitem HP x Hx.
    apply update_subseteq in Hx. apply elem_of_union in Hx as [Hx|Hx].
    + apply elem_of_singleton in Hx as ->. now right.
    + now apply HP.
  - intros v s HP. exact HP.
  - intros x Hx. now left.
  - split; [exact Hi|]. split; [intros ob x Hob; exact (Ho ob Hob x)|].
    intros -> x Hx. destruct (Hi x Hx) as [Hin|Hin]; [|exact Hin].
    now apply not_elem_of_empty in Hin.
Qed.

Lemma down_sample_event_fields (self : DES) :
  cur_probability (down_sample_event self) = halve (cur_probability self) /\
  _threshold_hit_count (down_sample_event self) = _threshold_hit_count self + 1.
Proof.
  unfold down_sample_event. destruct (sample _ _) as [xs g]. split; reflexivity.
Qed.

(** The block of an item either leaves the probability and the counter
    alone, or halves the one and adds one to the other. *)
Lemma update_event (thresh : Z) (item : K) (self : DES) :
  let s' := snd (update thresh item self) in
  (cur_probability s' = cur_probability self /\
   _threshold_hit_count s' = _threshold_hit_count self) \/
  (cur_probability s' = halve (cur_probability self) /\
   _threshold_hit_count s' = _threshold_hit_count self + 1).
Proof.
  cbv zeta. rewrite update_leaves. unfold per_item_update. cbv zeta.
  destruct (insert_after_remove item self) as (_ & Hp & Hk & _).
  destruct (thresh <=? len _).
  - right. destruct (down_sample_event_fields
                       (insert_with_retention_probability item (remove_if_present item self)))
      as [Hp' Hk'].
    rewrite Hp', Hk', Hp, Hk. split; reflexivity.
  - left. split; assumption.
Qed.

Lemma events_compose (h0 h1 h2 : Z) (p0 p1 p2 : float) :
  (p1 = p0 /\ h1 = h0) \/ (p1 = halve p0 /\ h1 = h0 + 1) ->
  0 <= h2 - h1 -> p2 = Nat.iter (Z.to_nat (h2 - h1)) halve p1 ->
  p2 = Nat.iter (Z.to_nat (h2 - h0)) halve p0.
Proof.
  intros [[-> ->]|[-> ->]] Hle ->; [reflexivity|].
  replace (Z.to_nat (h2 - h0)) with (Z.to_nat (h2 - (h0 + 1)) + 1)%nat by lia.
  rewrite Nat.iter_add. reflexivity.
Qed.

Lemma while_loop_events (thresh poll_rate : Z) (stream : list (option K)) :
  forall (i : Z) (self : DES),
  let o := while_loop thresh poll_rate stream i self in
  let events := _threshold_hit_count (instance o) - _threshold_hit_count self in
  0 <= events <= Z.of_nat (length stream) - Z.of_nat (length (unread o)) /\
  cur_probability (instance o) = Nat.iter (Z.to_nat events) halve (cur_probability self).
Proof.
  cbv zeta. induction stream as [|[item|] stream IH]; intros i self;
    cbn [while_loop instance unread length].
  - rewrite Z.sub_diag. split; [lia | reflexivity].
  - pose proof (update_event thresh item self) as Hev. cbv zeta in Hev.
    assert (Hone : forall s : DES,
              (cur_probability s = cur_probability self /\
               _threshold_hit_count s = _threshold_hit_count self) \/
              (cur_probability s = halve (cur_probability self) /\
               _threshold_hit_count s = _threshold_hit_count self + 1) ->
              0 <= _threshold_hit_count s - _threshold_hit_count self <=
                Z.of_nat (S (length stream)) - Z.of_nat (length stream) /\
              cur_probability s =
                Nat.iter (Z.to_nat (_threshold_hit_count s - _threshold_hit_count self))
                  halve (cur_probability self)).
    { intros s Hs. split; [destruct Hs as [[_ ->]|[_ ->]]; lia|].
      apply (events_compose _ (_threshold_hit_count s) _ _ (cur_probability s));
        [exact Hs | lia | now rewrite Z.sub_diag]. }
    assert (Hrec : forall (i' : Z) (s : DES),
              (cur_probability s = cur_probability self /\
               _threshold_hit_count s = _threshold_hit_count self) \/
              (cur_probability s = halve (cur_probability self) /\
               _threshold_hit_count s = _threshold_hit_count self + 1) ->
              let o := while_loop thresh poll_rate stream i' s in
              0 <= _threshold_hit_count (instance o) - _threshold_hit_count self <=
                Z.of_nat (S (length stream)) - Z.of_nat (length (unread o)) /\
              cur_probability (instance o) =
                Nat.iter (Z.to_nat (_threshold_hit_count (instance o) -
                                    _threshold_hit_count self))
                  halve (cur_probability self)).
    { intros i' s Hs. cbv zeta. destruct (IH i' s) as [Hb Hp].
      split; [destruct Hs as [[_ Hk]|[_ Hk]]; lia|].
      apply (events_compose _ (_threshold_hit_count s) _ _ (cur_probability s));
        [exact Hs | lia | exact Hp]. }
    destruct (update thresh item self) as [[[]|e] self1]; cbn [snd] in Hev;
      cbn [instance unread seen]; [|now apply Hone].
    destruct (poll_rate =? 0); [now apply Hone|].
    destruct (i mod poll_rate =? 0).
    + destruct (estimate self1) as [v|e]; [|now apply Hone].
      cbn [instance unread seen]. apply Hrec. exact Hev.
    + apply Hrec. exact Hev.
  - rewrite Z.sub_diag. split; [lia | reflexivity].
Qed.

(** X2.  A call raises the event counter by at most one for each item it
    takes from the stream, never lowers it, and leaves the probability it
    started from halved once for each event it counted. *)
Theorem at_most_one_event_per_item
  (self : DES) (stream : list (option K)) (stream_size : Z) (reset_state : bool)
  (poll_rate : Z) :
  let start := if reset_state then reset self else self in
  let o := distinct self stream stream_size reset_state poll_rate in
  let events := get_threshold_hit_count (instance o) - get_threshold_hit_count start in
  0 <= events <= Z.of_nat (length stream) - Z.of_nat (length (unread o)) /\
  cur_probability (instance o) = Nat.iter (Z.to_nat events) halve (cur_probability start).
Proof.
  cbv zeta. unfold get_threshold_hit_count, distinct.
  set (start := if reset_state then reset self else self).
  assert (Hstay : 0 <= _threshold_hit_count start - _threshold_hit_count start <=
                    Z.of_nat (length stream) - Z.of_nat (length stream) /\
                  cur_probability start =
                    Nat.iter (Z.to_nat (_threshold_hit_count start - _threshold_hit_count start))
                      halve (cur_probability start)).
  { rewrite Z.sub_diag. split; [lia | reflexivity]. }
  destruct (get_threshold start stream_size) as [thresh|e]; [|exact Hstay].
  destruct (thresh <=? 0); [exact Hstay|].
  pose proof (while_loop_events thresh poll_rate stream 0 start) as Hl. cbv zeta in Hl.
  destruct (value (while_loop thresh poll_rate stream 0 start)) as [[]|e];
    cbn [instance unread]; [|exact Hl].
  destruct (estimate _) as [v|e]; cbn [instance unread]; exact Hl.
Qed.

(** *** Streams with fewer distinct items than the threshold *)

Lemma estimate_at_one (self : DES) :
  cur_probability self = f_one -> len (acc_set self) < 2 ^ 53 ->
  estimate self = Ok (len (acc_set self)).
Proof.
  intros Hp Hn. unfold estimate. rewrite Hp.
  change f_one with (halved 0).
  rewrite floor_of_quotient_exact by (unfold len, min_exponent in *; lia).
  change (2 ^ Z.of_nat 0) with 1. rewrite Z.mul_1_r.
  replace (len (acc_set self) <? 2 ^ 1024) with true; [reflexivity|].
  symmetry. apply Z.ltb_lt.
  assert (2 ^ 53 < 2 ^ 1024) by (apply Z.pow_lt_mono_r; lia). lia.
Qed.

Lemma len_mono (a b : gset K) : a ⊆ b -> len a <= len b.
Proof. intros Hab. unfold len. apply Nat2Z.inj_le, subseteq_size, Hab. Qed.

(** With the probability at 1.0 the draw is below it, and the item is
    in the accumulator after the first two steps. *)
Lemma insert_at_one (item : K) (self : DES) :
  unit_draws rng -> cur_probability self = f_one ->
  acc_set (insert_with_retention_probability item (remove_if_present item self)) =
    {[item]} ∪ acc_set self.
Proof.
  intros Hd Hp. destruct (insert_after_remove item self) as (Hb & _).
  rewrite Hb, Hp, Hd. reflexivity.
Qed.

Lemma sample_succ (n : nat) (g : rng) :
  snd (sample (S n) g) = snd (sample n (snd (random g))).
Proof.
  cbn [sample]. destruct (random g) as [x g1]. cbn [snd].
  destruct (sample n g1) as [xs g2]. reflexivity.
Qed.

Lemma while_loop_exact (thresh poll_rate : Z) (items : list K) :
  unit_draws rng -> poll_rate <> 0 ->
  forall (i : Z) (self : DES),
  cur_probability self = f_one ->
  len (acc_set self ∪ list_to_set items) < thresh ->
  len (acc_set self ∪ list_to_set items) < 2 ^ 53 ->
  let o := while_loop thresh poll_rate (Some <$> items) i self in
  value o = Ok tt /\ unread o = [] /\
  acc_set (instance o) = acc_set self ∪ list_to_set items /\
  cur_probability (instance o) = f_one /\
  _threshold_hit_count (instance o) = _threshold_hit_count self /\
  rand (instance o) = snd (sample (length items) (rand self)).
Proof.
  intros Hd Hr. cbv zeta. induction items as [|item items IH]; intros i self Hp Ht Hn;
    cbn [fmap list_fmap while_loop value unread instance].
  - repeat split; try assumption. cbn [list_to_set]. apply set_eq. intros x.
    rewrite elem_of_union. split; [tauto | intros [Hx|Hx]; [exact Hx|]].
    now apply not_elem_of_empty in Hx.
  - cbn [list_to_set] in Ht, Hn.
    rewrite update_unfold. cbv zeta.
    destruct (insert_after_remove item self) as (_ & Hp1 & Hk1 & Hg1).
    pose proof (insert_at_one item self Hd Hp) as Hacc.
    set (s1 := insert_with_retention_probability item (remove_if_present item self)) in *.
    assert (Hsame : acc_set s1 ∪ list_to_set items =
                    acc_set self ∪ ({[item]} ∪ list_to_set items)).
    { rewrite Hacc. apply set_eq. intros x. rewrite !elem_of_union. tauto. }
    assert (Hlt : len (acc_set s1) < thresh).
    { eapply Z.le_lt_trans; [|exact Ht]. apply len_mono. rewrite Hacc.
      intros x. rewrite !elem_of_union. tauto. }
    replace (thresh <=? len (acc_set s1)) with false by (symmetry; apply Z.leb_gt; exact Hlt).
    cbn [value unread instance seen].
    apply Z.eqb_neq in Hr. rewrite Hr.
    assert (Hgo : forall (i' : Z) (s : DES),
              acc_set s = acc_set s1 -> cur_probability s = cur_probability s1 ->
              _threshold_hit_count s = _threshold_hit_count s1 -> rand s = rand s1 ->
              let o := while_loop thresh poll_rate (Some <$> items) i' s in
              value o = Ok tt /\ unread o = [] /\
              acc_set (instance o) = acc_set self ∪ ({[item]} ∪ list_to_set items) /\
              cur_probability (instance o) = f_one /\
              _threshold_hit_count (instance o) = _threshold_hit_count self /\
              rand (instance o) = snd (sample (length (item :: items)) (rand self))).
    { intros i' s Ha Hps Hks Hgs. cbv zeta.
      destruct (IH i' s) as (Hv & Hu & Hai & Hpi & Hki & Hgi).
      - now rewrite Hps, Hp1.
      - now rewrite Ha, Hsame.
      - now rewrite Ha, Hsame.
      - rewrite Hai, Hki, Hgi, Ha, Hsame, Hks, Hk1, Hgs, Hg1. cbn [length].
        rewrite sample_succ. repeat split; assumption. }
    destruct (i mod poll_rate =? 0).
    + rewrite estimate_at_one.
      * cbn [value unread instance seen]. now apply Hgo.
      * now rewrite Hp1.
      * eapply Z.le_lt_trans; [|exact Hn]. apply len_mono. rewrite Hacc.
        intros x. rewrite !elem_of_union. tauto.
    + now apply Hgo.
Qed.

Lemma while_loop_ok_below (thresh poll_rate : Z) (stream : list (option K)) :
  forall (i : Z) (self : DES) (u : unit),
  value (while_loop thresh poll_rate stream i self) = Ok u ->
  len (acc_set self) < thresh ->
  len (acc_set (instance (while_loop thresh poll_rate stream i self))) < thresh.
Proof.
  induction stream as [|[item|] stream IH]; intros i self u;
    cbn [while_loop value instance]; try (intros _ Hlt; exact Hlt).
  destruct (update thresh item self) as [[[]|e] self1] eqn:Hu;
    cbn [value instance seen]; [|discriminate].
  pose proof (update_ok_below _ _ _ _ Hu) as Hlt1.
  destruct (poll_rate =? 0); [discriminate|].
  destruct (i mod poll_rate =? 0).
  - destruct (estimate self1) as [v|e]; [|discriminate].
    cbn [value instance seen]. intros Hv _. now apply (IH _ _ u).
  - intros Hv _. now apply (IH _ _ u).
Qed.

Lemma while_loop_without_event (thresh poll_rate : Z) (items : list K) :
  unit_draws rng ->
  forall (i : Z) (self : DES) (u : unit),
  cur_probability self = f_one ->
  let o := while_loop thresh poll_rate (Some <$> items) i self in
  value o = Ok u ->
  _threshold_hit_count (instance o) = _threshold_hit_count self ->
  acc_set (instance o) = acc_set self ∪ list_to_set items.
Proof.
  intros Hd. cbv zeta. induction items as [|item items IH]; intros i self u Hp;
    cbn [fmap list_fmap while_loop value instance].
  - intros _ _. cbn [list_to_set]. apply set_eq. intros x.
    rewrite elem_of_union. split; [tauto | intros [Hx|Hx]; [exact Hx|]].
    now apply not_elem_of_empty in Hx.
  - cbn [list_to_set].
    pose proof (update_event thresh item self) as Hev. cbv zeta in Hev.
    pose proof (update_leaves thresh item self) as Hleaves.
    unfold per_item_update in Hleaves. cbv zeta in Hleaves.
    destruct (insert_after_remove item self) as (_ & Hp1 & Hk1 & _).
    pose proof (insert_at_one item self Hd Hp) as Hacc.
    set (s1 := insert_with_retention_probability item (remove_if_present item self)) in *.
    destruct (update thresh item self) as [[[]|e] self1]; cbn [snd] in Hev, Hleaves;
      cbn [value instance seen]; [|discriminate].
    destruct (poll_rate =? 0); [discriminate|].
    assert (Hgo : forall (i' : Z) (s : DES),
              acc_set s = acc_set self1 -> cur_probability s = cur_probability self1 ->
              _threshold_hit_count s = _threshold_hit_count self1 ->
              value (while_loop thresh poll_rate (Some <$> items) i' s) = Ok u ->
              _threshold_hit_count (instance (while_loop thresh poll_rate (Some <$> items) i' s))
                = _threshold_hit_count self ->
              acc_set (instance (while_loop thresh poll_rate (Some <$> items) i' s)) =
                acc_set self ∪ ({[item]} ∪ list_to_set items)).
    { intros i' s Ha Hps Hks Hv Hk.
      pose proof (while_loop_events thresh poll_rate (Some <$> items) i' s) as [Hmono _].
      destruct Hev as [[Hpe Hke]|[_ Hke]]; [|lia].
      destruct (thresh <=? len (acc_set s1)).
      { destruct (down_sample_event_fields s1) as [_ Hk2]. rewrite <- Hleaves in Hk2. lia. }
      subst self1.
      rewrite (IH i' s u); [| now rewrite Hps, Hp1 | exact Hv | lia].
      rewrite Ha, Hacc. apply set_eq. intros x. rewrite !elem_of_union. tauto. }
    destruct (i mod poll_rate =? 0).
    + destruct (estimate self1) as [v|e]; [|discriminate].
      cbn [value instance seen]. now apply Hgo.
    + now apply Hgo.
Qed.

(** The call on a stream with fewer distinct items than the threshold. *)
Lemma distinct_exact
  (self : DES) (items : list K) (stream_size : Z) (reset_state : bool)
  (poll_rate thresh : Z) :
  let start := if reset_state then reset self else self in
  let o := distinct self (Some <$> items) stream_size reset_state poll_rate in
  let elems := acc_set start ∪ list_to_set items in
  unit_draws rng ->
  get_threshold start stream_size = Ok thresh ->
  cur_probability start = f_one ->
  len elems < 2 ^ 53 ->
  poll_rate <> 0 ->
  len elems < thresh ->
  value o = Ok (len elems) /\ acc_set (instance o) = elems /\ unread o = [] /\
  cur_probability (instance o) = f_one /\
  _threshold_hit_count (instance o) = _threshold_hit_count start /\
  rand (instance o) = snd (sample (length items) (rand start)).
Proof.
  cbv zeta. set (start := if reset_state then reset self else self).
  intros Hd Ht Hp Hn Hr Hlt. unfold distinct. fold start. rewrite Ht.
  assert (Hpos : (thresh <=? 0) = false) by (apply Z.leb_gt; unfold len in Hlt; lia).
  rewrite Hpos.
  destruct (while_loop_exact thresh poll_rate items Hd Hr 0 start Hp Hlt Hn)
    as (Hv & Hu & Ha & Hp' & Hk & Hg).
  rewrite Hv. rewrite estimate_at_one by (rewrite ?Ha; assumption).
  cbn [value instance unread]. rewrite Ha. repeat split; assumption.
Qed.

(** X3.  Take a generator whose draws are below 1.0, and a call that
    starts with the retention probability at 1.0 (on a new instance, or
    with [reset_state]).  If the stream, together with what the
    accumulator held, has fewer distinct items than the threshold, the
    call returns their exact number, the accumulator holds exactly these
    items, and no down-sample event takes place.  Conversely a call that
    returns without having counted an event had fewer distinct items than
    the threshold. *)
Theorem exact_count_below_threshold
  (self : DES) (items : list K) (stream_size : Z) (reset_state : bool)
  (poll_rate thresh : Z) :
  let start := if reset_state then reset self else self in
  let o := distinct self (Some <$> items) stream_size reset_state poll_rate in
  let elems := acc_set start ∪ list_to_set items in
  unit_draws rng ->
  get_threshold start stream_size = Ok thresh ->
  cur_probability start = f_one ->
  len (acc_set start) < thresh ->
  len elems < 2 ^ 53 ->
  poll_rate <> 0 ->
  (len elems < thresh ->
   value o = Ok (len elems) /\ acc_set (instance o) = elems /\ unread o = [] /\
   cur_probability (instance o) = f_one /\
   get_threshold_hit_count (instance o) = get_threshold_hit_count start /\
   rand (instance o) = snd (sample (length items) (rand start))) /\
  (forall v : Z,
     value o = Ok v ->
     get_threshold_hit_count (instance o) = get_threshold_hit_count start ->
     len elems < thresh).
Proof.
  cbv zeta. set (start := if reset_state then reset self else self).
  intros Hd Ht Hp Hs Hn Hr. split.
  - intros Hlt. unfold get_threshold_hit_count.
    exact (distinct_exact self items stream_size reset_state poll_rate thresh
             Hd Ht Hp Hn Hr Hlt).
  - unfold distinct, get_threshold_hit_count. fold start. rewrite Ht.
    assert (Hpos : (thresh <=? 0) = false) by (apply Z.leb_gt; unfold len in Hs; lia).
    rewrite Hpos. intros v.
    destruct (value (while_loop thresh poll_rate (Some <$> items) 0 start)) as [[]|e] eqn:Hv;
      [|discriminate].
    pose proof (while_loop_ok_below thresh poll_rate _ 0 start tt Hv Hs) as Hb.
    pose proof (while_loop_without_event thresh poll_rate items Hd 0 start tt Hp Hv) as Ha.
    destruct (estimate _) as [w|e]; [|discriminate].
    cbn [value instance]. intros _ Hk.
    change (_threshold_hit_count (set_distinct_item_count w ?s))
      with (_threshold_hit_count s) in Hk.
    rewrite <- (Ha Hk). exact Hb.
Qed.

(** *** The polls *)

Lemma length_intermediate_estimates {A} (o : outcome A) :
  length (intermediate_estimates o) = length (List.filter id (is_poll <$> observed o)).
Proof.
  unfold intermediate_estimates. induction (observed o) as [|[s|s] l IH];
    cbn [omap list_omap fmap list_fmap List.filter is_poll id length]; congruence.
Qed.

Lemma while_loop_schedule (thresh poll_rate : Z) (items : list K) :
  poll_rate <> 0 ->
  forall (j : nat) (i : Z) (self : DES) (u : unit),
  i mod poll_rate = Z.of_nat j mod poll_rate ->
  value (while_loop thresh poll_rate (Some <$> items) i self) = Ok u ->
  is_poll <$> observed (while_loop thresh poll_rate (Some <$> items) i self) =
    flat_map (observations_of_item poll_rate) (seq j (length items)).
Proof.
  intros Hr. induction items as [|item items IH]; intros j i self u Hi;
    cbn [fmap list_fmap while_loop value observed length seq flat_map]; [reflexivity|].
  destruct (update thresh item self) as [[[]|e] self1];
    cbn [value observed seen]; [|discriminate].
  pose proof Hr as Hr'. apply Z.eqb_neq in Hr'. rewrite Hr'.
  unfold observations_of_item at 1. rewrite <- Hi.
  assert (Hnext : forall i' : Z, i' mod poll_rate = i mod poll_rate ->
            (i' + 1) mod poll_rate = Z.of_nat (S j) mod poll_rate).
  { intros i' Hi'. rewrite Nat2Z.inj_succ. unfold Z.succ.
    rewrite <- (Z.add_mod_idemp_l i'), <- (Z.add_mod_idemp_l (Z.of_nat j)) by exact Hr.
    now rewrite Hi', Hi. }
  destruct (i mod poll_rate =? 0) eqn:Hz.
  - destruct (estimate self1) as [v|e]; [|discriminate].
    cbn [value observed seen fmap list_fmap is_poll app]. intros Hv.
    f_equal. f_equal. apply (IH (S j) _ _ u); [|exact Hv].
    apply Hnext. apply Z.eqb_eq in Hz. rewrite Hz. apply Z.mod_0_l. exact Hr.
  - cbn [fmap list_fmap is_poll app]. intros Hv.
    f_equal. apply (IH (S j) _ _ u); [|exact Hv]. now apply Hnext.
Qed.

(** X4.  A call that returns, on a stream of [n] items with a poll rate
    that is not zero, makes one observation after the block of every
    item, followed by a poll exactly after the items at the positions 0,
    [poll_rate], 2 [poll_rate], ... (a negative rate counts as its
    absolute value); so it publishes [ceil(n / |poll_rate|)] estimates
    before the final one. *)
Theorem polls_every_poll_rate_items
  (self : DES) (items : list K) (stream_size : Z) (reset_state : bool)
  (poll_rate v : Z) :
  let o := distinct self (Some <$> items) stream_size reset_state poll_rate in
  poll_rate <> 0 ->
  value o = Ok v ->
  is_poll <$> observed o = poll_schedule poll_rate (length items) /\
  Z.of_nat (length (intermediate_estimates o)) =
    (Z.of_nat (length items) + Z.abs poll_rate - 1) / Z.abs poll_rate.
Proof.
  cbv zeta. intros Hr Hv.
  assert (Hs : is_poll <$> observed (distinct self (Some <$> items) stream_size reset_state
                                       poll_rate) =
               poll_schedule poll_rate (length items)).
  { revert Hv. unfold distinct.
    destruct (get_threshold _ _) as [thresh|e]; [|discriminate].
    destruct (thresh <=? 0); [discriminate|].
    pose proof (while_loop_schedule thresh poll_rate items Hr 0 0
                  (if reset_state then reset self else self)) as Hl.
    destruct (value (while_loop _ _ _ _ _)) as [[]|e]; [|discriminate].
    specialize (Hl tt eq_refl eq_refl).
    destruct (estimate _) as [w|e]; [|discriminate].
    intros _. exact Hl. }
  split; [exact Hs|].
  rewrite length_intermediate_estimates, Hs. unfold poll_schedule.
  rewrite (polls_of_schedule poll_rate (length items) Hr 0).
  rewrite Nat.add_0_l. change (Z.of_nat 0) with 0.
  replace ((0 + Z.abs poll_rate - 1) / Z.abs poll_rate) with 0; [lia|].
  symmetry. apply Z.div_small. lia.
Qed.

(** X5.  With a poll rate of zero the test [i % poll_rate] raises: a call
    on a stream whose first object is an item takes that item, runs its
    block, and raises [ZeroDivisionError] (or the overflow error of the
    block) without reading further and without an estimate; only a call
    that reads no item returns. *)
Theorem zero_poll_rate_stops_after_first_item
  (self : DES) (item : K) (rest : list (option K)) (stream_size : Z) (reset_state : bool)
  (thresh : Z) :
  let start := if reset_state then reset self else self in
  let o := distinct self (Some item :: rest) stream_size reset_state 0 in
  get_threshold start stream_size = Ok thresh ->
  0 < thresh ->
  instance o = snd (update thresh item start) /\
  unread o = rest /\
  (fst (update thresh item start) = Ok tt ->
   value o = Raise ZeroDivisionError /\ observed o = [updated (instance o)]) /\
  (forall e : exn, fst (update thresh item start) = Raise e -> value o = Raise e) /\
  value (distinct self [] stream_size reset_state 0) = estimate start /\
  value (distinct self (None :: rest) stream_size reset_state 0) = estimate start.
Proof.
  cbv zeta. intros Ht Hpos. unfold distinct. rewrite Ht.
  replace (thresh <=? 0) with false by (symmetry; apply Z.leb_gt; exact Hpos).
  cbn [while_loop].
  split; [|split; [|split; [|split; [|split]]]].
  - destruct (update thresh item _) as [[[]|e] s1]; reflexivity.
  - destruct (update thresh item _) as [[[]|e] s1]; reflexivity.
  - destruct (update thresh item _) as [[[]|e] s1]; cbn [fst]; [|discriminate].
    intros _. split; reflexivity.
  - intros e. destruct (update thresh item _) as [[[]|e'] s1]; cbn [fst]; [discriminate|].
    intros [= ->]. reflexivity.
  - cbn [value instance]. destruct (estimate _); reflexivity.
  - cbn [value instance]. destruct (estimate _); reflexivity.
Qed.

(** *** An object [None] in the stream *)

Lemma while_loop_none (thresh poll_rate : Z) (items : list K) (rest : list (option K)) :
  forall (i : Z) (self : DES),
  let o := while_loop thresh poll_rate (Some <$> items) i self in
  let o' := while_loop thresh poll_rate ((Some <$> items) ++ None :: rest) i self in
  value o' = value o /\ instance o' = instance o /\ observed o' = observed o /\
  unread o' = match value o with
              | Ok _ => rest
              | Raise _ => unread o ++ None :: rest
              end.
Proof.
  cbv zeta. induction items as [|item items IH]; intros i self;
    cbn [fmap list_fmap app while_loop value instance observed unread].
  - repeat split.
  - destruct (update thresh item self) as [[[]|e] self1];
      cbn [value instance observed unread seen]; [|repeat split].
    destruct (poll_rate =? 0); [repeat split|].
    destruct (i mod poll_rate =? 0).
    + destruct (estimate self1) as [v|e]; [|repeat split].
      cbn [value instance observed unread seen].
      destruct (IH (0 + 1) (set_distinct_item_count v self1)) as (Hv & Hi & Ho & Hu).
      rewrite Hv, Hi, Ho, Hu. repeat split.
    + destruct (IH (i + 1) self1) as (Hv & Hi & Ho & Hu).
      rewrite Hv, Hi, Ho, Hu. repeat split.
Qed.

(** X6.  An object [None] ends the stream: a call on a stream whose first
    [None] comes after the items [items] has the value, the instance and
    the observations of the call on [items] alone.  When that call
    returns, the objects after the [None] are left unread; in every case
    what is left unread is either these objects, or what the call on
    [items] left followed by the [None] and these objects. *)
Theorem none_ends_the_stream
  (self : DES) (items : list K) (rest : list (option K)) (stream_size : Z)
  (reset_state : bool) (poll_rate : Z) :
  let o := distinct self (Some <$> items) stream_size reset_state poll_rate in
  let o' := distinct self ((Some <$> items) ++ None :: rest) stream_size reset_state
              poll_rate in
  value o' = value o /\ instance o' = instance o /\ observed o' = observed o /\
  (forall v : Z, value o = Ok v -> unread o' = rest) /\
  (unread o' = rest \/ unread o' = unread o ++ None :: rest).
Proof.
  cbv zeta. unfold distinct.
  destruct (get_threshold _ _) as [thresh|e];
    [|repeat split; [discriminate | now right]].
  destruct (thresh <=? 0); [repeat split; [discriminate | now right]|].
  destruct (while_loop_none thresh poll_rate items rest 0
              (if reset_state then reset self else self)) as (Hv & Hi & Ho & Hu).
  rewrite Hv, Hi, Ho, Hu.
  destruct (value (while_loop thresh poll_rate (Some <$> items) 0 _)) as [[]|e];
    [|repeat split; [discriminate | now right]].
  destruct (estimate _) as [v|e]; cbn [value instance observed unread];
    repeat split; now left.
Qed.

(** *** When the block raises *)

Lemma sample_length (n : nat) : forall g : rng, length (fst (sample n g)) = n.
Proof.
  induction n as [|n IH]; intros g; cbn [sample]; [reflexivity|].
  destruct (random g) as [x g1]. specialize (IH g1).
  destruct (sample n g1) as [xs g2]. cbn [fst length] in *. now rewrite IH.
Qed.

Lemma retain_sublist (vs : list K) : forall xs : list float, retain vs xs `sublist_of` vs.
Proof.
  induction vs as [|v vs IH]; intros xs; cbn [retain]; [constructor|].
  destruct xs as [|x xs]; [apply sublist_nil_l|].
  destruct (f_ge x f_half); [apply sublist_skip | apply sublist_cons]; apply IH.
Qed.

Lemma retain_all (vs : list K) :
  forall xs : list float,
  length xs = length vs ->
  (length (retain vs xs) = length vs <-> Forall (fun d => f_ge d f_half = true) xs).
Proof.
  induction vs as [|v vs IH]; intros xs Hlen.
  - destruct xs; [|discriminate]. split; [constructor | reflexivity].
  - destruct xs as [|x xs]; [discriminate|]. cbn [retain]. injection Hlen as Hlen.
    destruct (f_ge x f_half) eqn:Hx.
    + cbn [length]. rewrite Forall_cons. specialize (IH xs Hlen). split.
      * intros [= Hl]. split; [exact Hx | now apply IH].
      * intros [_ Hall]. f_equal. now apply IH.
    + split.
      * intros Hl. pose proof (sublist_length _ _ (retain_sublist vs xs)) as Hle.
        cbn [length] in Hl. lia.
      * intros Hall. apply Forall_cons in Hall as [Hx' _]. congruence.
Qed.

Lemma size_insert_le (item : K) (X : gset K) : (size ({[item]} ∪ X) <= S (size X))%nat.
Proof.
  rewrite size_union_alt, size_singleton.
  enough (size (X ∖ {[item]}) <= size X)%nat by lia.
  apply subseteq_size. intros x Hx. now apply elem_of_difference in Hx as [Hx _].
Qed.

(** X7.  On an instance whose accumulator is below the threshold, the
    block of an item raises exactly when the item brings the accumulator
    to the threshold and the down-sample event drops nothing: every one of
    its draws is at least 0.5.  The accumulator is then the one the
    insertion left, with the probability halved and the event counted. *)
Theorem overflow_iff_nothing_dropped (thresh : Z) (item : K) (self : DES) :
  let b := insert_with_retention_probability item (remove_if_present item self) in
  let draws := fst (sample (size (acc_set b)) (rand b)) in
  len (acc_set self) < thresh ->
  ((exists e : exn, fst (update thresh item self) = Raise e) <->
   len (acc_set b) = thresh /\ Forall (fun d => f_ge d f_half = true) draws) /\
  (forall e : exn,
     fst (update thresh item self) = Raise e ->
     acc_set (snd (update thresh item self)) = acc_set b /\
     cur_probability (snd (update thresh item self)) = halve (cur_probability self) /\
     _threshold_hit_count (snd (update thresh item self)) = _threshold_hit_count self + 1).
Proof.
  cbv zeta. intros Hlt.
  set (b := insert_with_retention_probability item (remove_if_present item self)).
  destruct (insert_after_remove item self) as (Hb & Hpb & Hkb & _). fold b in Hb, Hpb, Hkb.
  assert (Hble : len (acc_set b) <= thresh).
  { rewrite Hb. unfold len in *. destruct (f_lt _ _).
    - pose proof (size_insert_le item (acc_set self)). lia.
    - assert (size (acc_set self ∖ {[item]}) <= size (acc_set self))%nat; [|lia].
      apply subseteq_size. intros x Hx. now apply elem_of_difference in Hx as [Hx _]. }
  assert (Hsize : size (acc_set (down_sample_event b)) =
                  length (retain (elements (acc_set b))
                            (fst (sample (size (acc_set b)) (rand b))))).
  { unfold down_sample_event.
    replace (length (elements (acc_set b))) with (size (acc_set b)) by reflexivity.
    destruct (sample (size (acc_set b)) (rand b)) as [xs g].
    cbn [acc_set set_threshold_hit_count set_cur_probability set_acc_set set_rand fst].
    apply size_list_to_set.
    apply (sublist_NoDup _ (elements (acc_set b)));
      [apply NoDup_elements | apply retain_sublist]. }
  assert (Hall : length (retain (elements (acc_set b))
                           (fst (sample (size (acc_set b)) (rand b)))) =
                 length (elements (acc_set b)) <->
                 Forall (fun d => f_ge d f_half = true)
                   (fst (sample (size (acc_set b)) (rand b)))).
  { apply retain_all. now rewrite sample_length. }
  pose proof (sublist_length _ _
                (retain_sublist (elements (acc_set b))
                   (fst (sample (size (acc_set b)) (rand b))))) as Hle.
  assert (Hiff : forall e : exn,
            fst (update thresh item self) = Raise e <->
            thresh <= len (acc_set b) /\ thresh <= len (acc_set (down_sample_event b)) /\
            e = OverflowError (could_not_down_sample thresh
                                 (len (acc_set (down_sample_event b)))))
    by (intros e; apply update_raise_iff).
  assert (Hel : length (elements (acc_set b)) = size (acc_set b)) by reflexivity.
  split.
  - split.
    + intros [e He]. apply Hiff in He as (H1 & H2 & _). split; [lia|].
      apply Hall. unfold len in *. lia.
    + intros [Heq Hd]. apply Hall in Hd.
      exists (OverflowError (could_not_down_sample thresh
                               (len (acc_set (down_sample_event b))))).
      apply Hiff. unfold len in *. repeat split; lia.
  - intros e He. apply Hiff in He as (H1 & H2 & _).
    rewrite update_leaves. unfold per_item_update. cbv zeta. fold b.
    replace (thresh <=? len (acc_set b)) with true by (symmetry; apply Z.leb_le; exact H1).
    destruct (down_sample_event_fields b) as [Hp' Hk'].
    rewrite Hp', Hk', Hpb, Hkb. split; [|split; reflexivity].
    apply set_subseteq_size_eq; [apply down_sample_event_subseteq|].
    unfold len in *. lia.
Qed.

(** *** What a call that returns gives *)

Lemma estimate_same_sample (a b : DES) : same_sample a b -> estimate a = estimate b.
Proof.
  unfold same_sample, estimate. intros Hab.
  pose proof (f_equal acc_set Hab) as Ha. pose proof (f_equal cur_probability Hab) as Hp.
  cbn [acc_set cur_probability set_distinct_item_count] in Ha, Hp. now rewrite Ha, Hp.
Qed.

Lemma set_same_sample (v : Z) (a b : DES) :
  same_sample a b -> set_distinct_item_count v a = set_distinct_item_count v b.
Proof.
  unfold same_sample. intros Hab.
  change (set_distinct_item_count v (set_distinct_item_count 0 a) =
          set_distinct_item_count v (set_distinct_item_count 0 b)).
  now rewrite Hab.
Qed.

(** A call that returns has applied the block to every item, in order;
    its value is the estimate of the instance this gives. *)
Lemma distinct_returns (self : DES) (items : list K) (stream_size : Z)
  (reset_state : bool) (poll_rate thresh v : Z) :
  let start := if reset_state then reset self else self in
  let o := distinct self (Some <$> items) stream_size reset_state poll_rate in
  get_threshold start stream_size = Ok thresh ->
  value o = Ok v ->
  estimate (process thresh items start) = Ok v /\
  instance o = set_distinct_item_count v (process thresh items start) /\
  unread o = [].
Proof.
  cbv zeta. intros Ht. unfold distinct. rewrite Ht.
  destruct (thresh <=? 0); [discriminate|].
  destruct (while_loop_consumes thresh poll_rate items 0
              (if reset_state then reset self else self))
    as (consumed & rest & Hi & Hu & Hp & Hv).
  destruct (value (while_loop _ _ _ _ _)) as [[]|e]; [|discriminate].
  rewrite (Hv tt eq_refl) in Hu.
  rewrite (Hv tt eq_refl), app_nil_r in Hi. subst consumed.
  rewrite (estimate_same_sample _ _ Hp).
  destruct (estimate _) as [w|e]; [|discriminate].
  cbn [value instance unread]. intros [= ->]. split; [reflexivity|].
  split; [now apply set_same_sample | exact Hu].
Qed.

Lemma process_app (thresh : Z) (xs ys : list K) (self : DES) :
  process thresh (xs ++ ys) self = process thresh ys (process thresh xs self).
Proof. unfold process. apply foldl_app. Qed.

Lemma get_threshold_configuration (a b : DES) (n : Z) :
  configuration a = configuration b -> get_threshold a n = get_threshold b n.
Proof.
  unfold configuration, get_threshold. intros [= -> -> -> _]. reflexivity.
Qed.

(** X8.  A stream may be given in pieces: when a call on [xs], a second
    call on [ys] made on the instance the first one left, and a single call
    on [xs ++ ys] all return, with the same threshold, the second call and
    the single call return the same estimate and leave the same instance,
    whatever the three poll rates and declared sizes. *)
Theorem stream_in_two_calls
  (self : DES) (xs ys : list K) (n1 n2 n : Z) (reset_state : bool)
  (r1 r2 r thresh v1 v2 v : Z) :
  let start := if reset_state then reset self else self in
  let o1 := distinct self (Some <$> xs) n1 reset_state r1 in
  let o2 := distinct (instance o1) (Some <$> ys) n2 false r2 in
  let o := distinct self (Some <$> (xs ++ ys)) n reset_state r in
  get_threshold start n1 = Ok thresh ->
  get_threshold start n2 = Ok thresh ->
  get_threshold start n = Ok thresh ->
  value o1 = Ok v1 -> value o2 = Ok v2 -> value o = Ok v ->
  v = v2 /\ instance o = instance o2.
Proof.
  cbv zeta. intros Ht1 Ht2 Ht Hv1 Hv2 Hv.
  destruct (distinct_returns self xs n1 reset_state r1 thresh v1 Ht1 Hv1) as (_ & Hi1 & _).
  destruct (distinct_returns self (xs ++ ys) n reset_state r thresh v Ht Hv) as (He & Hi & _).
  assert (Ht2' : get_threshold (instance (distinct self (Some <$> xs) n1 reset_state r1)) n2
                 = Ok thresh).
  { rewrite <- Ht2. apply get_threshold_configuration.
    rewrite distinct_configuration. now destruct reset_state. }
  destruct (distinct_returns _ ys n2 false r2 thresh v2 Ht2' Hv2) as (He2 & Hi2 & _).
  cbv zeta in He2, Hi2.
  set (start := if reset_state then reset self else self) in *.
  assert (Hs : same_sample
                 (process thresh ys (instance (distinct self (Some <$> xs) n1 reset_state r1)))
                 (process thresh (xs ++ ys) start)).
  { rewrite process_app, Hi1. apply process_same_sample, same_sample_set. }
  rewrite (estimate_same_sample _ _ Hs), He in He2. injection He2 as ->.
  split; [reflexivity|]. rewrite Hi, Hi2. symmetry. now apply set_same_sample.
Qed.

(** X9.  The poll rate decides when estimates are published along the
    way, and nothing else: two calls on the same stream from the same
    instance that both return, return the same estimate and leave the same
    instance, whatever their poll rates. *)
Theorem poll_rate_leaves_result
  (self : DES) (items : list K) (stream_size : Z) (reset_state : bool)
  (poll_rate poll_rate' v v' : Z) :
  let o := distinct self (Some <$> items) stream_size reset_state poll_rate in
  let o' := distinct self (Some <$> items) stream_size reset_state poll_rate' in
  value o = Ok v -> value o' = Ok v' ->
  v = v' /\ instance o = instance o' /\ unread o = unread o'.
Proof.
  cbv zeta. intros Hv Hv'.
  destruct (get_threshold (if reset_state then reset self else self) stream_size)
    as [thresh|e] eqn:Ht.
  2:{ unfold distinct in Hv. rewrite Ht in Hv. discriminate. }
  destruct (distinct_returns self items stream_size reset_state poll_rate thresh v Ht Hv)
    as (He & Hi & Hu).
  destruct (distinct_returns self items stream_size reset_state poll_rate' thresh v' Ht Hv')
    as (He' & Hi' & Hu').
  rewrite He in He'. injection He' as <-.
  split; [reflexivity|]. split; [now rewrite Hi, Hi' | now rewrite Hu, Hu'].
Qed.

Lemma distinct_value_is_estimate (self : DES) (stream : list (option K)) (stream_size : Z)
  (reset_state : bool) (poll_rate v : Z) :
  let o := distinct self stream stream_size reset_state poll_rate in
  value o = Ok v ->
  estimate (instance o) = Ok v /\ set_distinct_item_count v (instance o) = instance o.
Proof.
  cbv zeta. unfold distinct.
  destruct (get_threshold _ _) as [t|e]; [|discriminate].
  destruct (t <=? 0); [discriminate|].
  destruct (value (while_loop _ _ _ _ _)) as [[]|e]; [|discriminate].
  destruct (estimate (instance _)) as [w|e] eqn:He; [|discriminate].
  cbn [value instance]. intros [= ->]. split; [exact He | reflexivity].
Qed.

Lemma distinct_empty (self : DES) (stream_size poll_rate thresh : Z) :
  get_threshold self stream_size = Ok thresh -> 0 < thresh ->
  distinct self [] stream_size false poll_rate =
    match estimate self with
    | Ok v => {| value := Ok v; instance := set_distinct_item_count v self;
                 unread := []; observed := [] |}
    | Raise e => {| value := Raise e; instance := self; unread := []; observed := [] |}
    end.
Proof.
  intros Ht Hpos. unfold distinct. rewrite Ht.
  replace (thresh <=? 0) with false by (symmetry; apply Z.leb_gt; exact Hpos).
  cbn [while_loop value instance unread observed]. reflexivity.
Qed.

(** X10.  A call on an empty stream draws nothing and touches nothing but
    the published estimate, which it recomputes; made on the instance a
    call that returned has left, it returns the same estimate again and
    leaves the instance as it is. *)
Theorem empty_stream_republishes
  (self : DES) (stream : list (option K)) (stream_size : Z) (reset_state : bool)
  (poll_rate stream_size' poll_rate' thresh v : Z) :
  let o1 := distinct self stream stream_size reset_state poll_rate in
  let o2 := distinct (instance o1) [] stream_size' false poll_rate' in
  get_threshold (instance o1) stream_size' = Ok thresh ->
  0 < thresh ->
  value o2 = estimate (instance o1) /\
  same_sample (instance o2) (instance o1) /\
  observed o2 = [] /\
  (value o1 = Ok v ->
   o2 = {| value := Ok v; instance := instance o1; unread := []; observed := [] |}).
Proof.
  cbv zeta. intros Ht Hpos.
  rewrite (distinct_empty _ _ _ _ Ht Hpos).
  split; [destruct (estimate _); reflexivity|].
  split; [destruct (estimate _); reflexivity|].
  split; [destruct (estimate _); reflexivity|].
  intros Hv.
  destruct (distinct_value_is_estimate self stream stream_size reset_state poll_rate v Hv)
    as [He Hset].
  rewrite He, Hset. reflexivity.
Qed.

(** X11.  The threshold an instance resolves for a stream size is part of
    its configuration: a call of [distinct], its observations and [reset]
    leave it as it was, and with an integer threshold [get_threshold]
    answers that integer for every stream size, as the test of the
    repository expects of [DES(threshold=100, seed=42)] after its run. *)
Theorem get_threshold_is_kept
  (self : DES) (stream : list (option K)) (stream_size : Z) (reset_state : bool)
  (poll_rate m : Z) :
  let o := distinct self stream stream_size reset_state poll_rate in
  get_threshold (instance o) m = get_threshold self m /\
  get_threshold (reset self) m = get_threshold self m /\
  (forall ob : observation,
     ob ∈ observed o -> get_threshold (state_of ob) m = get_threshold self m) /\
  (forall t : Z, _threshold self = threshold_int t -> get_threshold (instance o) m = Ok t).
Proof.
  cbv zeta.
  pose (P := fun s : DES => configuration s = configuration self).
  destruct (distinct_invariant P self stream stream_size reset_state poll_rate) as [Hi Ho].
  - intros thresh item s _ HP. unfold P. now rewrite update_configuration.
  - intros v s HP. exact HP.
  - unfold P. now destruct reset_state.
  - assert (Hinst : get_threshold
                      (instance (distinct self stream stream_size reset_state poll_rate)) m =
                    get_threshold self m) by (apply get_threshold_configuration, Hi).
    split; [exact Hinst|]. split; [reflexivity|].
    split; [intros ob Hob; apply get_threshold_configuration, (Ho ob Hob)|].
    intros t Hint. rewrite Hinst. unfold get_threshold. now rewrite Hint.
Qed.

(** *** The range of the estimate *)


Lemma estimate_ok_positive (self : DES) (v : Z) :
  halved_as_counted self -> estimate self = Ok v ->
  _threshold_hit_count self <= Z.of_nat min_exponent.
Proof.
  intros [Hk0 Hp] He.
  destruct (Z.le_gt_cases (_threshold_hit_count self) (Z.of_nat min_exponent)) as [|Hgt];
    [assumption|].
  exfalso. revert He. unfold estimate, floor_of_quotient, mbind, result_bind.
  rewrite Hp, halved_zero by lia.
  destruct (float_of_int _); [|discriminate]. discriminate.
Qed.

(** X12.  A call only returns while the retention probability is a
    positive number: on an instance that can be reached, a call that
    returns has counted at most 1074 down-sample events since the last
    reset, and its probability is [2^-k] exactly; past that the division
    of the estimate raises. *)
Theorem returns_only_above_underflow
  (self : DES) (stream : list (option K)) (stream_size : Z) (reset_state : bool)
  (poll_rate v : Z) :
  let o := distinct self stream stream_size reset_state poll_rate in
  reachable self ->
  value o = Ok v ->
  0 <= get_threshold_hit_count (instance o) <= 1074 /\
  cur_probability (instance o) = dyadic 1 (- get_threshold_hit_count (instance o)) /\
  f_lt f_zero (cur_probability (instance o)) = true.
Proof.
  cbv zeta. intros Hr Hv. unfold get_threshold_hit_count.
  pose proof (reachable_halved_as_counted _
                (reachable_distinct self stream stream_size reset_state poll_rate Hr)) as Hinv.
  pose proof (estimate_ok_positive _ v Hinv
                (proj1 (distinct_value_is_estimate _ _ _ _ _ _ Hv))) as Hk.
  destruct Hinv as [Hk0 Hp]. unfold min_exponent in Hk.
  split; [lia|]. rewrite Hp. split.
  - rewrite halved_dyadic by (unfold min_exponent; lia). now rewrite Z2Nat.id.
  - apply halved_positive. unfold min_exponent. lia.
Qed.

(** X13.  On an instance that can be reached, with fewer than [2^53]
    elements, the expression of the estimate has three outcomes, decided
    by the event counter [k] and the size [n]: past 1074 events the
    probability is 0.0 and the division raises [ZeroDivisionError]; up to
    there the quotient is [n * 2^k] exactly, which is the estimate when it
    is below [2^1024], and otherwise the quotient is infinite and
    [math.floor] raises [OverflowError]. *)
Theorem estimate_outcomes (self : DES) :
  let k := get_threshold_hit_count self in
  let n := len (acc_set self) in
  reachable self ->
  n < 2 ^ 53 ->
  estimate self =
    if Z.of_nat min_exponent <? k then Raise ZeroDivisionError
    else if n * 2 ^ k <? 2 ^ 1024 then Ok (n * 2 ^ k)
    else Raise (OverflowError cannot_convert_float_infinity_to_integer).
Proof.
  cbv zeta. unfold get_threshold_hit_count. intros Hr Hn.
  destruct (reachable_halved_as_counted self Hr) as [Hk0 Hp].
  unfold estimate. rewrite Hp.
  destruct (Z.ltb_spec (Z.of_nat min_exponent) (_threshold_hit_count self)) as [Hk|Hk].
  - rewrite halved_zero by lia.
    unfold floor_of_quotient, mbind, result_bind.
    destruct (Z.eq_dec (len (acc_set self)) 0) as [->|Hne]; [reflexivity|].
    destruct (float_of_int_exact (len (acc_set self)) ltac:(unfold len in *; lia))
      as (m & e & -> & _).
    reflexivity.
  - rewrite floor_of_quotient_exact by (unfold len in *; lia).
    now rewrite Z2Nat.id.
Qed.

Lemma distinct_ok_below (self : DES) (stream : list (option K)) (stream_size : Z)
  (reset_state : bool) (poll_rate thresh v : Z) :
  let start := if reset_state then reset self else self in
  let o := distinct self stream stream_size reset_state poll_rate in
  get_threshold start stream_size = Ok thresh ->
  len (acc_set start) < thresh ->
  value o = Ok v ->
  len (acc_set (instance o)) < thresh.
Proof.
  cbv zeta. intros Ht Hs. unfold distinct. rewrite Ht.
  destruct (thresh <=? 0); [discriminate|].
  pose proof (while_loop_ok_below thresh poll_rate stream 0
                (if reset_state then reset self else self)) as Hb.
  destruct (value (while_loop _ _ _ _ _)) as [[]|e]; [|discriminate].
  destruct (estimate _) as [w|e]; [|discriminate].
  cbn [value instance]. intros _. exact (Hb tt eq_refl Hs).
Qed.

(** X14.  The estimate a call returns is the size of the accumulator times
    [2^k], [k] being the events counted, and the accumulator is below the
    threshold: the estimate is a multiple of [2^k] that is at most
    [(thresh - 1) * 2^k].  With a threshold of 1 the estimate is 0. *)
Theorem estimate_at_most_threshold_times_events
  (self : DES) (stream : list (option K)) (stream_size : Z) (reset_state : bool)
  (poll_rate thresh v : Z) :
  let start := if reset_state then reset self else self in
  let o := distinct self stream stream_size reset_state poll_rate in
  let k := get_threshold_hit_count (instance o) in
  reachable self ->
  get_threshold start stream_size = Ok thresh ->
  len (acc_set start) < thresh ->
  thresh <= 2 ^ 53 ->
  value o = Ok v ->
  v = len (acc_set (instance o)) * 2 ^ k /\
  0 <= v <= (thresh - 1) * 2 ^ k /\
  (thresh = 1 -> v = 0).
Proof.
  cbv zeta. intros Hr Ht Hs H53 Hv. unfold get_threshold_hit_count.
  pose proof (reachable_halved_as_counted _
                (reachable_distinct self stream stream_size reset_state poll_rate Hr)) as Hinv.
  pose proof (proj1 (distinct_value_is_estimate _ _ _ _ _ _ Hv)) as He.
  pose proof (estimate_ok_positive _ v Hinv He) as Hk.
  pose proof (distinct_ok_below self stream stream_size reset_state poll_rate thresh v
                Ht Hs Hv) as Hb.
  pose proof (estimate_exact _ v Hinv ltac:(lia) Hk He) as Hex.
  destruct Hinv as [Hk0 _].
  set (k := _threshold_hit_count (instance _)) in *.
  set (n := len (acc_set (instance _))) in *.
  assert (Hn0 : 0 <= n) by (unfold n, len; lia).
  assert (Hpow : 0 < 2 ^ k) by (apply Z.pow_pos_nonneg; lia).
  split; [exact Hex|]. split; [nia|].
  intros ->. assert (n = 0) by lia. subst v. lia.
Qed.

End FurtherProperties.

(** ** [calculate_threshold], continued *)

Section ThresholdEdges.
Variable libm_pow : float -> float -> float.
Variable libm_log : float -> float.

Lemma check_passed_not_zero (x : float) :
  f_le x f_zero || f_ge x f_one = false -> f_eq x f_zero = false.
Proof. destruct x as [[]|[]| |[] m e]; try reflexivity; discriminate. Qed.

Lemma math_log_raises_value_error (x : float) (err : exn) :
  math_log libm_log x = Raise err -> err = ValueError.
Proof.
  unfold math_log. destruct x as [s|[]| |s m e]; try discriminate.
  - destruct (f_lt _ _); [destruct (_ || _); [|discriminate]|]; now intros [= <-].
  - now intros [= <-].
  - destruct (f_lt _ _); [destruct (_ || _); [|discriminate]|]; now intros [= <-].
Qed.

Lemma f_mul_nan_l (y : float) : f_mul S754_nan y = S754_nan.
Proof. destruct y; reflexivity. Qed.

Lemma f_mul_nan_r (x : float) : f_mul x S754_nan = S754_nan.
Proof. destruct x; reflexivity. Qed.

Lemma div_nan_r (x : float) : SFdiv prec emax x S754_nan = S754_nan.
Proof. destruct x; reflexivity. Qed.

(** X15.  A NaN passes the three checks of [calculate_threshold], which
    are comparisons, but never gives a threshold: with a NaN as relative
    error tolerance the call raises [ValueError] (from a check on the other
    arguments, from [math.log], or from [math.ceil] of a NaN), unless the
    stream size is too large for a float; with a NaN as failure probability
    it raises as well. *)
Theorem nan_gives_no_threshold (n : Z) (e d : float) :
  (is_nan e = true ->
   calculate_threshold libm_pow libm_log n e d = Raise ValueError \/
   calculate_threshold libm_pow libm_log n e d =
     Raise (OverflowError int_too_large_to_convert_to_float)) /\
  (is_nan d = true ->
   exists err : exn, calculate_threshold libm_pow libm_log n e d = Raise err) /\
  (is_nan e || is_nan d = true ->
   forall t : Z, calculate_threshold libm_pow libm_log n e d <> Ok t).
Proof.
  assert (He : is_nan e = true ->
               calculate_threshold libm_pow libm_log n e d = Raise ValueError \/
               calculate_threshold libm_pow libm_log n e d =
                 Raise (OverflowError int_too_large_to_convert_to_float)).
  { destruct e; try discriminate. intros _.
    rewrite calculate_threshold_checks. unfold invalid_arguments.
    change (f_le S754_nan f_zero || f_ge S754_nan f_one) with false. cbn [orb].
    destruct (f_le d f_zero || f_ge d f_one) eqn:Hd; [now left|].
    cbn [orb]. destruct (n <=? 0); [now left|].
    unfold threshold_expression, mbind, result_bind. cbn [math_pow_2].
    change (truediv f_twelve S754_nan) with (@Ok float S754_nan).
    destruct (float_of_int n) as [x|err] eqn:Hx.
    2:{ right. revert Hx. unfold float_of_int. destruct (is_inf _); [|discriminate].
        now intros [= <-]. }
    unfold truediv. rewrite (check_passed_not_zero d Hd).
    destruct (math_log libm_log _) as [r|err] eqn:Hr.
    - rewrite f_mul_nan_l. now left.
    - apply math_log_raises_value_error in Hr as ->. now left. }
  assert (Hd : is_nan d = true ->
               exists err : exn, calculate_threshold libm_pow libm_log n e d = Raise err).
  { destruct d; try discriminate. intros _.
    rewrite calculate_threshold_checks.
    destruct (invalid_arguments n e S754_nan); [now exists ValueError|].
    unfold threshold_expression, mbind, result_bind.
    destruct (math_pow_2 libm_pow e) as [sq|err]; [|now exists err].
    destruct (truediv f_twelve sq) as [lhs|err]; [|now exists err].
    destruct (float_of_int n) as [x|err]; [|now exists err].
    unfold truediv. change (f_eq S754_nan f_zero) with false. cbv iota.
    rewrite div_nan_r. cbn [math_log]. rewrite f_mul_nan_r. now exists ValueError. }
  split; [exact He|]. split; [exact Hd|].
  intros Hnan t Ht. apply orb_prop in Hnan as [Hn|Hn].
  - destruct (He Hn) as [Hr|Hr]; rewrite Hr in Ht; discriminate.
  - destruct (Hd Hn) as [err Hr]. rewrite Hr in Ht. discriminate.
Qed.

Section DefaultInstance.
Context {K : Type} `{Countable K}.
Context {rng : Type} `{RandomSource rng}.

(** X16.  An instance made with the defaults resolves its threshold with
    [calculate_threshold] at the tolerances 0.1 and 0.05, which pass the
    checks: [get_threshold] raises [ValueError] exactly for a stream size
    that is not positive and evaluates the formula otherwise, also after
    the instance has been used; a call of [distinct] that declares such a
    size raises [ValueError] before it reads anything. *)
Theorem default_threshold_needs_positive_stream_size
  (seed : Z) (stream1 : list (option K)) (stream_size1 : Z) (reset_state1 : bool)
  (poll_rate1 : Z) (stream : list (option K)) (stream_size : Z) (reset_state : bool)
  (poll_rate : Z) :
  let new := @DES_with_defaults K _ _ rng _ libm_pow libm_log seed in
  let used := instance (distinct new stream1 stream_size1 reset_state1 poll_rate1) in
  (forall m : Z,
     get_threshold used m =
       if m <=? 0 then Raise ValueError
       else threshold_expression libm_pow libm_log m _rel_err_tol_default
              _fail_prob_default) /\
  (stream_size <= 0 ->
   distinct used stream stream_size reset_state poll_rate =
     {| value := Raise ValueError; instance := if reset_state then reset used else used;
        unread := stream; observed := [] |}).
Proof.
  cbv zeta.
  set (new := @DES_with_defaults K _ _ rng _ libm_pow libm_log seed).
  set (used := instance (distinct new stream1 stream_size1 reset_state1 poll_rate1)).
  assert (Hget : forall (s : @DES K _ _ rng) (m : Z),
            configuration s = configuration new ->
            get_threshold s m =
              if m <=? 0 then Raise ValueError
              else threshold_expression libm_pow libm_log m _rel_err_tol_default
                     _fail_prob_default).
  { intros s m Hc. unfold configuration in Hc. unfold get_threshold.
    injection Hc as -> -> -> _. cbn [new DES_with_defaults __init__].
    rewrite calculate_threshold_checks. unfold invalid_arguments.
    change (f_le _rel_err_tol_default f_zero || f_ge _rel_err_tol_default f_one) with false.
    change (f_le _fail_prob_default f_zero || f_ge _fail_prob_default f_one) with false.
    reflexivity. }
  assert (Hused : configuration used = configuration new)
    by apply distinct_configuration.
  split; [intros m; now apply Hget|].
  intros Hle. unfold distinct.
  rewrite (Hget (if reset_state then reset used else used) stream_size)
    by (destruct reset_state; exact Hused).
  now replace (stream_size <=? 0) with true by (symmetry; apply Z.leb_le; exact Hle).
Qed.

End DefaultInstance.

End ThresholdEdges.

(** ** The test of the repository *)

Section TestProperties.
Context {K : Type} `{Countable K}.

(** X17.  [run_test] builds [DES(threshold=100, seed=42)] and runs it over
    the words of the text.  Its assertion on the threshold, 100 after the
    call, holds for every text.  On a text with fewer than 100 distinct words
    the call returns their exact number without any down-sample event, so
    the assertion that the event counter is 6 fails and [run_test] raises
    [AssertionError].  When [run_test] returns, the text has at least 100
    distinct words, the counter is 6, the count is 64 times the size of the
    accumulator, which is below 100, and one accuracy has been appended:
    1.0 minus the quotient of the error by the number of distinct words. *)
Theorem run_test_needs_a_hundred_distinct_words
  (hamlet : list K) (accuracies_accumulator : list float) :
  let des : @DES K _ _ MT19937.state :=
    __init__ (threshold_int 100) _rel_err_tol_default _fail_prob_default 42 in
  let o := distinct des (Some <$> hamlet) (Z.of_nat (length hamlet)) false 10 in
  let words := len (list_to_set hamlet) in
  get_threshold (instance o) (Z.of_nat (length hamlet)) = Ok 100 /\
  (words < 100 ->
   value o = Ok words /\ get_threshold_hit_count (instance o) = 0 /\
   run_test hamlet accuracies_accumulator = raised AssertionError) /\
  (forall accuracies : list float,
     run_test hamlet accuracies_accumulator = returned accuracies ->
     100 <= words /\
     get_threshold_hit_count (instance o) = 6 /\
     exists (count : Z) (q : float),
       value o = Ok count /\
       count = len (acc_set (instance o)) * 64 /\ 0 <= count <= 99 * 64 /\
       int_truediv (Z.abs (words - count)) words = Ok (Some q) /\
       accuracies = accuracies_accumulator ++ [f_sub f_one q]).
Proof.
  cbv zeta.
  set (des := __init__ (threshold_int 100) _rel_err_tol_default _fail_prob_default 42
              : @DES K _ _ MT19937.state).
  set (o := distinct des (Some <$> hamlet) (Z.of_nat (length hamlet)) false 10).
  assert (Ht : get_threshold des (Z.of_nat (length hamlet)) = Ok 100) by reflexivity.
  assert (Ht' : get_threshold (instance o) (Z.of_nat (length hamlet)) = Ok 100).
  { rewrite <- Ht. apply get_threshold_configuration, distinct_configuration. }
  assert (Hrun : run_test hamlet accuracies_accumulator =
                 match value o with
                 | Ok count =>
                     if negb (get_threshold_hit_count (instance o) =? 6)
                     then raised AssertionError
                     else
                       match int_truediv (Z.abs (len (list_to_set hamlet) - count))
                               (len (list_to_set hamlet)) with
                       | Raise e => raised e
                       | Ok None => raised_integer_division_result_too_large_for_a_float
                       | Ok (Some q) => returned (accuracies_accumulator ++ [f_sub f_one q])
                       end
                 | Raise e => raised e
                 end).
  { unfold run_test. fold des. fold o.
    destruct (value o); [|reflexivity]. rewrite Ht'. reflexivity. }
  assert (Hexact : len (list_to_set hamlet) < 100 ->
                   value o = Ok (len (list_to_set hamlet)) /\
                   get_threshold_hit_count (instance o) = 0).
  { intros Hlt.
    assert (Hel : acc_set des ∪ list_to_set hamlet = list_to_set hamlet).
    { apply set_eq. intros x. rewrite elem_of_union. split; [|tauto].
      intros [Hx|Hx]; [|exact Hx]. now apply not_elem_of_empty in Hx. }
    destruct (distinct_exact des hamlet (Z.of_nat (length hamlet)) false 10 100
                MT19937_unit_draws Ht eq_refl) as (Hv & _ & _ & _ & Hk & _).
    - rewrite Hel. assert (100 < 2 ^ 53) by reflexivity. lia.
    - discriminate.
    - now rewrite Hel.
    - fold o in Hv, Hk. rewrite Hel in Hv. split; [exact Hv | exact Hk]. }
  split; [exact Ht'|]. split.
  - intros Hlt. destruct (Hexact Hlt) as [Hv Hk].
    split; [exact Hv|]. split; [exact Hk|].
    rewrite Hrun, Hv, Hk. reflexivity.
  - intros accuracies. rewrite Hrun.
    destruct (value o) as [count|e] eqn:Hv; [|discriminate].
    destruct (get_threshold_hit_count (instance o) =? 6) eqn:Hk; [|discriminate].
    cbn [negb]. apply Z.eqb_eq in Hk.
    destruct (int_truediv _ _) as [[q|]|e] eqn:Hq; try discriminate.
    intros [= <-].
    assert (Hwords : 100 <= len (list_to_set hamlet)).
    { destruct (Z.le_gt_cases 100 (len (list_to_set hamlet))) as [|Hlt]; [assumption|].
      destruct (Hexact ltac:(lia)) as [_ Hk0]. rewrite Hk0 in Hk. discriminate. }
    split; [exact Hwords|]. split; [exact Hk|].
    assert (Hr : reachable (instance o)) by (apply reachable_distinct, reachable_init).
    pose proof (reachable_halved_as_counted _ Hr) as Hinv.
    pose proof (proj1 (distinct_value_is_estimate des _ _ false 10 count Hv)) as He.
    pose proof (distinct_ok_below des (Some <$> hamlet) (Z.of_nat (length hamlet)) false 10
                  100 count Ht ltac:(reflexivity) Hv) as Hb.
    fold o in He, Hb. unfold get_threshold_hit_count in Hk.
    assert (H53 : 100 < 2 ^ 53) by reflexivity.
    pose proof (estimate_exact _ count Hinv ltac:(lia)
                  ltac:(rewrite Hk; unfold min_exponent; lia) He) as Hex.
    rewrite Hk in Hex. change (2 ^ 6) with 64 in Hex.
    exists count, q. split; [reflexivity|]. split; [exact Hex|].
    split; [unfold len in *; lia|]. split; [exact Hq | reflexivity].
Qed.

End TestProperties.

(** [run_test] on the fourteen items: twelve distinct words, no event. *)
Example run_test_fourteen_items : run_test fourteen_items [] = raised AssertionError.
Proof. vm_compute. reflexivity. Qed.

(** ** The further properties at runs *)

(** X3 at [DES(threshold=100, seed=42)] on the fourteen items, twelve of
    them distinct. *)
Lemma exact_count_below_threshold_witness :
  let items := fourteen_items in
  let o := distinct des_100_42 (Some <$> items) 14 false 10 in
  let elems := acc_set des_100_42 ∪ list_to_set items in
  unit_draws MT19937.state /\
  get_threshold des_100_42 14 = Ok 100 /\
  len elems = 12 /\
  value o = Ok (len elems) /\ acc_set (instance o) = elems /\ unread o = [] /\
  cur_probability (instance o) = f_one /\
  get_threshold_hit_count (instance o) = get_threshold_hit_count des_100_42 /\
  rand (instance o) = snd (sample (length items) (rand des_100_42)).
Proof.
  cbv zeta.
  assert (Ht : get_threshold des_100_42 14 = Ok 100) by reflexivity.
  assert (Hp : cur_probability des_100_42 = f_one) by reflexivity.
  assert (Hl : len (acc_set des_100_42 ∪ list_to_set fourteen_items) = 12)
    by (vm_compute; reflexivity).
  assert (Hs : len (acc_set des_100_42) < 100) by (vm_compute; reflexivity).
  assert (Hn : len (acc_set des_100_42 ∪ list_to_set fourteen_items) < 2 ^ 53)
    by (rewrite Hl; reflexivity).
  assert (Hr : 10 <> 0) by discriminate.
  assert (Hlt : len (acc_set des_100_42 ∪ list_to_set fourteen_items) < 100)
    by (rewrite Hl; reflexivity).
  split; [exact MT19937_unit_draws|]. split; [exact Ht|]. split; [exact Hl|].
  exact (proj1 (exact_count_below_threshold des_100_42 fourteen_items 14 false 10 100
                  MT19937_unit_draws Ht Hp Hs Hn Hr) Hlt).
Defined.

(** X4 at the same call: fourteen items and a poll rate of 10 give the
    polls after the first and the eleventh item. *)
Lemma polls_every_poll_rate_items_witness :
  let o := distinct des_100_42 (Some <$> fourteen_items) 14 false 10 in
  10 <> 0 /\ value o = Ok 12 /\
  is_poll <$> observed o = poll_schedule 10 (length fourteen_items) /\
  Z.of_nat (length (intermediate_estimates o)) =
    (Z.of_nat (length fourteen_items) + Z.abs 10 - 1) / Z.abs 10.
Proof.
  cbv zeta.
  assert (Hr : 10 <> 0) by discriminate.
  assert (Hv : value (distinct des_100_42 (Some <$> fourteen_items) 14 false 10) = Ok 12)
    by (vm_compute; reflexivity).
  split; [exact Hr|]. split; [exact Hv|].
  exact (polls_every_poll_rate_items des_100_42 fourteen_items 14 false 10 12 Hr Hv).
Defined.

(** X5 at [DES(threshold=100, seed=42).distinct([1, 2], 2, poll_rate=0)]. *)
Lemma zero_poll_rate_stops_after_first_item_witness :
  let o := distinct des_100_42 [Some 1; Some 2] 2 false 0 in
  get_threshold des_100_42 2 = Ok 100 /\ 0 < 100 /\
  instance o = snd (update 100 1 des_100_42) /\
  unread o = [Some 2] /\
  (fst (update 100 1 des_100_42) = Ok tt ->
   value o = Raise ZeroDivisionError /\ observed o = [updated (instance o)]) /\
  (forall e : exn, fst (update 100 1 des_100_42) = Raise e -> value o = Raise e) /\
  value (distinct des_100_42 [] 2 false 0) = estimate des_100_42 /\
  value (distinct des_100_42 [None; Some 2] 2 false 0) = estimate des_100_42.
Proof.
  cbv zeta.
  assert (Ht : get_threshold des_100_42 2 = Ok 100) by reflexivity.
  assert (Hpos : 0 < 100) by lia.
  split; [exact Ht|]. split; [exact Hpos|].
  exact (zero_poll_rate_stops_after_first_item des_100_42 1 [Some 2] 2 false 100 Ht Hpos).
Defined.

(** X7 at the first item of [DES(threshold=1, seed=0)]: the only draw of
    the event is 0.757..., and the block raises. *)
Lemma overflow_iff_nothing_dropped_witness :
  let b := insert_with_retention_probability 1 (remove_if_present 1 des_1_0) in
  let draws := fst (sample (size (acc_set b)) (rand b)) in
  len (acc_set des_1_0) < 1 /\
  draws = [S754_finite false 6827046333291546 (-53)] /\
  fst (update 1 1 des_1_0) = Raise (OverflowError (could_not_down_sample 1 1)) /\
  ((exists e : exn, fst (update 1 1 des_1_0) = Raise e) <->
   len (acc_set b) = 1 /\ Forall (fun d => f_ge d f_half = true) draws) /\
  (forall e : exn,
     fst (update 1 1 des_1_0) = Raise e ->
     acc_set (snd (update 1 1 des_1_0)) = acc_set b /\
     cur_probability (snd (update 1 1 des_1_0)) = halve (cur_probability des_1_0) /\
     _threshold_hit_count (snd (update 1 1 des_1_0)) = _threshold_hit_count des_1_0 + 1).
Proof.
  cbv zeta.
  assert (Hs : len (acc_set des_1_0) < 1) by (vm_compute; reflexivity).
  split; [exact Hs|]. split; [vm_compute; reflexivity|].
  split; [vm_compute; reflexivity|].
  exact (overflow_iff_nothing_dropped 1 1 des_1_0 Hs).
Defined.

(** X8 at the fourteen items, given as four and then ten, with poll
    rates 10, 4 and 3. *)
Lemma stream_in_two_calls_witness :
  let xs := [1; 2; 3; 1] in
  let ys := [2; 4; 5; 6; 7; 8; 9; 10; 11; 12] in
  let o1 := distinct des_100_42 (Some <$> xs) 4 false 10 in
  let o2 := distinct (instance o1) (Some <$> ys) 10 false 4 in
  let o := distinct des_100_42 (Some <$> (xs ++ ys)) 14 false 3 in
  value o1 = Ok 3 /\ value o2 = Ok 12 /\ value o = Ok 12 /\
  12 = 12 /\ instance o = instance o2.
Proof.
  cbv zeta.
  assert (Ht1 : get_threshold des_100_42 4 = Ok 100) by reflexivity.
  assert (Ht2 : get_threshold des_100_42 10 = Ok 100) by reflexivity.
  assert (Ht : get_threshold des_100_42 14 = Ok 100) by reflexivity.
  assert (Hv1 : value (distinct des_100_42 (Some <$> [1; 2; 3; 1]) 4 false 10) = Ok 3)
    by (vm_compute; reflexivity).
  assert (Hv2 : value (distinct (instance (distinct des_100_42 (Some <$> [1; 2; 3; 1]) 4 false 10))
                         (Some <$> [2; 4; 5; 6; 7; 8; 9; 10; 11; 12]) 10 false 4) = Ok 12)
    by (vm_compute; reflexivity).
  assert (Hv : value (distinct des_100_42
                        (Some <$> ([1; 2; 3; 1] ++ [2; 4; 5; 6; 7; 8; 9; 10; 11; 12]))
                        14 false 3) = Ok 12)
    by (vm_compute; reflexivity).
  split; [exact Hv1|]. split; [exact Hv2|]. split; [exact Hv|].
  exact (stream_in_two_calls des_100_42 [1; 2; 3; 1] [2; 4; 5; 6; 7; 8; 9; 10; 11; 12]
           4 10 14 false 10 4 3 100 3 12 12 Ht1 Ht2 Ht Hv1 Hv2 Hv).
Defined.

(** X9 at the fourteen items, with the poll rates 10 and 3. *)
Lemma poll_rate_leaves_result_witness :
  let o := distinct des_100_42 (Some <$> fourteen_items) 14 false 10 in
  let o' := distinct des_100_42 (Some <$> fourteen_items) 14 false 3 in
  value o = Ok 12 /\ value o' = Ok 12 /\
  intermediate_estimates o = [1; 9] /\ intermediate_estimates o' = [1; 3; 5; 8; 11] /\
  12 = 12 /\ instance o = instance o' /\ unread o = unread o'.
Proof.
  cbv zeta.
  assert (Hv : value (distinct des_100_42 (Some <$> fourteen_items) 14 false 10) = Ok 12)
    by (vm_compute; reflexivity).
  assert (Hv' : value (distinct des_100_42 (Some <$> fourteen_items) 14 false 3) = Ok 12)
    by (vm_compute; reflexivity).
  split; [exact Hv|]. split; [exact Hv'|].
  split; [vm_compute; reflexivity|]. split; [vm_compute; reflexivity|].
  exact (poll_rate_leaves_result des_100_42 fourteen_items 14 false 10 3 12 12 Hv Hv').
Defined.

(** X10 at [DES(threshold=100, seed=42)] after its call on the fourteen
    items. *)
Lemma empty_stream_republishes_witness :
  let o1 := distinct des_100_42 (Some <$> fourteen_items) 14 false 10 in
  let o2 := distinct (instance o1) [] 0 false 10 in
  get_threshold (instance o1) 0 = Ok 100 /\ 0 < 100 /\ value o1 = Ok 12 /\
  o2 = {| value := Ok 12; instance := instance o1; unread := []; observed := [] |}.
Proof.
  cbv zeta.
  assert (Ht : get_threshold
                 (instance (distinct des_100_42 (Some <$> fourteen_items) 14 false 10)) 0
               = Ok 100) by (vm_compute; reflexivity).
  assert (Hpos : 0 < 100) by lia.
  assert (Hv : value (distinct des_100_42 (Some <$> fourteen_items) 14 false 10) = Ok 12)
    by (vm_compute; reflexivity).
  split; [exact Ht|]. split; [exact Hpos|]. split; [exact Hv|].
  exact (proj2 (proj2 (proj2
           (empty_stream_republishes des_100_42 (Some <$> fourteen_items) 14 false 10 0 10
              100 12 Ht Hpos))) Hv).
Defined.

(** X12 at [DES(threshold=1, seed=42)] on five items: two events. *)
Lemma returns_only_above_underflow_witness :
  let o := distinct des_1_42 five 5 false 10 in
  reachable des_1_42 /\ value o = Ok 0 /\
  0 <= get_threshold_hit_count (instance o) <= 1074 /\
  cur_probability (instance o) = dyadic 1 (- get_threshold_hit_count (instance o)) /\
  f_lt f_zero (cur_probability (instance o)) = true.
Proof.
  cbv zeta.
  assert (Hr : reachable des_1_42) by (unfold des_1_42, des; apply reachable_init).
  assert (Hv : value (distinct des_1_42 five 5 false 10) = Ok 0) by (vm_compute; reflexivity).
  split; [exact Hr|]. split; [exact Hv|].
  exact (returns_only_above_underflow des_1_42 five 5 false 10 0 Hr Hv).
Defined.

(** X13 at [DES(threshold=100, seed=42)] after its call on the fourteen
    items: no event, twelve elements. *)
Lemma estimate_outcomes_witness :
  let k := get_threshold_hit_count used_100_42 in
  let n := len (acc_set used_100_42) in
  reachable used_100_42 /\ n < 2 ^ 53 /\ k = 0 /\ n = 12 /\
  estimate used_100_42 =
    if Z.of_nat min_exponent <? k then Raise ZeroDivisionError
    else if n * 2 ^ k <? 2 ^ 1024 then Ok (n * 2 ^ k)
    else Raise (OverflowError cannot_convert_float_infinity_to_integer).
Proof.
  cbv zeta.
  assert (Hr : reachable used_100_42).
  { unfold used_100_42. apply reachable_distinct. unfold des_100_42, des.
    apply reachable_init. }
  assert (Hn : len (acc_set used_100_42) < 2 ^ 53) by (vm_compute; reflexivity).
  split; [exact Hr|]. split; [exact Hn|].
  split; [vm_compute; reflexivity|]. split; [vm_compute; reflexivity|].
  exact (estimate_outcomes used_100_42 Hr Hn).
Defined.

(** X14 at the same call: with a threshold of 1 the estimate is 0. *)
Lemma estimate_at_most_threshold_times_events_witness :
  let o := distinct des_1_42 five 5 false 10 in
  let k := get_threshold_hit_count (instance o) in
  reachable des_1_42 /\ get_threshold des_1_42 5 = Ok 1 /\
  len (acc_set des_1_42) < 1 /\ 1 <= 2 ^ 53 /\ value o = Ok 0 /\
  0 = len (acc_set (instance o)) * 2 ^ k /\
  0 <= 0 <= (1 - 1) * 2 ^ k /\
  (1 = 1 -> 0 = 0).
Proof.
  cbv zeta.
  assert (Hr : reachable des_1_42) by (unfold des_1_42, des; apply reachable_init).
  assert (Ht : get_threshold des_1_42 5 = Ok 1) by reflexivity.
  assert (Hs : len (acc_set des_1_42) < 1) by (vm_compute; reflexivity).
  assert (H53 : 1 <= 2 ^ 53) by (vm_compute; discriminate).
  assert (Hv : value (distinct des_1_42 five 5 false 10) = Ok 0) by (vm_compute; reflexivity).
  split; [exact Hr|]. split; [exact Ht|]. split; [exact Hs|]. split; [exact H53|].
  split; [exact Hv|].
  exact (estimate_at_most_threshold_times_events des_1_42 five 5 false 10 1 0 Hr Ht Hs H53 Hv).
Defined.
